(** * get_from.py: mirroring a regulations API into a directory tree

    A shallow embedding of [get_from.py] and of the library functions it
    calls ([posixpath], [urlparse], [json.dump], [os.makedirs], [open]),
    followed by the properties of the script. *)

From Stdlib Require Import ZArith Ascii String List Lia Bool DecimalString.
From stdpp Require Import base option list gmap strings.
Import ListNotations.

Local Open Scope Z_scope.
Local Open Scope list_scope.
Local Open Scope string_scope.

(** ** Python [str] operations *)

Definition sep : ascii := "/"%char.

Definition is_sep (c : ascii) : bool := Ascii.eqb c sep.

(** [s.startswith('/')] *)
Definition startswith_sep (s : string) : bool :=
  match s with
  | String c _ => is_sep c
  | EmptyString => false
  end.

(** [s.endswith('/')] *)
Fixpoint endswith_sep (s : string) : bool :=
  match s with
  | EmptyString => false
  | String c EmptyString => is_sep c
  | String _ rest => endswith_sep rest
  end.

(** [c in s] *)
Fixpoint contains (c : ascii) (s : string) : bool :=
  match s with
  | EmptyString => false
  | String d rest => Ascii.eqb d c || contains c rest
  end.

(** [s.split(c, 1)] when [c in s]: the text before the first [c] and the
    text after it; [None] when [c] does not occur ([s.find(c) == -1]). *)
Fixpoint partition (c : ascii) (s : string) : option (string * string) :=
  match s with
  | EmptyString => None
  | String d rest =>
      if Ascii.eqb d c then Some (EmptyString, rest)
      else match partition c rest with
           | Some (a, b) => Some (String d a, b)
           | None => None
           end
  end.

(** [s.split('/')] *)
Fixpoint split_sep (s : string) : list string :=
  match s with
  | EmptyString => [EmptyString]
  | String c rest =>
      if is_sep c then EmptyString :: split_sep rest
      else match split_sep rest with
           | seg :: segs => String c seg :: segs
           | [] => [String c EmptyString]
           end
  end.

(** ['/'.join(segments)] *)
Fixpoint join_sep (segments : list string) : string :=
  match segments with
  | [] => EmptyString
  | [seg] => seg
  | seg :: rest => seg ++ String sep (join_sep rest)
  end.

(** [s.rstrip('/')] *)
Fixpoint rstrip_sep (s : string) : string :=
  match s with
  | EmptyString => EmptyString
  | String c rest =>
      match rstrip_sep rest with
      | EmptyString => if is_sep c then EmptyString else String c EmptyString
      | kept => String c kept
      end
  end.

(** [s == '/' * len(s)] *)
Fixpoint all_sep (s : string) : bool :=
  match s with
  | EmptyString => true
  | String c rest => is_sep c && all_sep rest
  end.

(** [(p[:i], p[i:])] for [i = p.rfind('/') + 1]. *)
Fixpoint rsplit_sep (p : string) : string * string :=
  match p with
  | EmptyString => (EmptyString, EmptyString)
  | String c rest =>
      let (head, tail) := rsplit_sep rest in
      if is_sep c then (String c head, tail)
      else match head with
           | EmptyString => (EmptyString, String c tail)
           | _ => (String c head, tail)
           end
  end.

(** [str(n)] for an integer. *)
Definition str_of_Z (n : Z) : string := NilEmpty.string_of_int (Z.to_int n).

(** ** [posixpath] *)

(** One step of the loop of [posixpath.join]. *)
Definition join_step (path b : string) : string :=
  if startswith_sep b then b
  else if negb (bool_decide (path = EmptyString)) && negb (endswith_sep path)
       then path ++ String sep b
       else path ++ b.

(** [os.path.join(a, *p)] *)
Definition os_path_join (a : string) (p : list string) : string :=
  fold_left join_step p a.

(** [os.path.split(p)] *)
Definition os_path_split (p : string) : string * string :=
  let (head, tail) := rsplit_sep p in
  if negb (bool_decide (head = EmptyString)) && negb (all_sep head)
  then (rstrip_sep head, tail)
  else (head, tail).

(** [os.path.dirname(p)] *)
Definition os_path_dirname (p : string) : string := fst (os_path_split p).

(** ** Python exceptions *)

Inductive errno := EEXIST | ENOENT | ENOTDIR | EISDIR.

Inductive exn :=
  | ValueError
  | KeyError
  | TypeError
  | AttributeError
  | IndexError
  | OSError (e : errno)
  | IOError (e : errno)
  | RequestException
  | RuntimeError
  | SystemExit (code : Z)
  | UnicodeDecodeError
  | UnicodeEncodeError.

(** ** Python 2 strings: [str] and [unicode]

    The command line gives [str] values (bytes); the strings of a JSON
    document and the text of a parsed page are [unicode].  Where the
    two meet, Python 2 decodes the [str] as ASCII, and where a
    [unicode] is formatted into a [str] it encodes it as ASCII; either
    raises when a character is not ASCII. *)

Definition between (lo hi c : ascii) : bool :=
  (N.leb (N_of_ascii lo) (N_of_ascii c)) && (N.leb (N_of_ascii c) (N_of_ascii hi)).

Fixpoint string_forallb (f : ascii -> bool) (s : string) : bool :=
  match s with
  | EmptyString => true
  | String c rest => f c && string_forallb f rest
  end.

Definition is_ascii_char (c : ascii) : bool := (N_of_ascii c <? 128)%N.

Definition is_ascii (s : string) : bool := string_forallb is_ascii_char s.

(** [u.encode('ascii')], as [str.format] does for a [unicode] argument. *)
Definition encode_ascii (u : string) : exn + string :=
  if is_ascii u then inr u else inl UnicodeEncodeError.

(** One step of the loop of [posixpath.join] where [path] is a [str]
    and the component [b] a [unicode]: [path + b] and [path + ('/' + b)]
    decode [path]. *)
Definition join_step_unicode (path b : string) : exn + string :=
  if startswith_sep b then inr b
  else if is_ascii path then inr (join_step path b)
  else inl UnicodeDecodeError.

(** A string of either type, for the functions that are called with
    both; the characters of a [unicode] are code points up to 255. *)
Record pystring := mkPy { is_unicode : bool; chars : string }.

Definition py_str (s : string) : pystring := mkPy false s.
Definition py_unicode (s : string) : pystring := mkPy true s.

(** A slice of [s] has the type of [s]. *)
Definition slice_of (s : pystring) (part : string) : pystring :=
  mkPy (is_unicode s) part.

(** [not s] *)
Definition py_empty (s : pystring) : bool := bool_decide (chars s = EmptyString).

(** [a + b] *)
Definition py_add (a b : pystring) : exn + pystring :=
  if negb (is_unicode a) && is_unicode b && negb (is_ascii (chars a))
     || is_unicode a && negb (is_unicode b) && negb (is_ascii (chars b))
  then inl UnicodeDecodeError
  else inr (mkPy (is_unicode a || is_unicode b) (chars a ++ chars b)).

Definition and_then {A B} (r : exn + A) (k : A -> exn + B) : exn + B :=
  match r with
  | inl e => inl e
  | inr a => k a
  end.

Notation "x <~ r ;; k" := (and_then r (fun x => k))
  (at level 100, r at next level, right associativity).

(** ** [urlparse] (Python 2.7) *)

Definition uses_relative : list string :=
  ["ftp"; "http"; "gopher"; "nntp"; "imap"; "wais"; "file"; "https";
   "shttp"; "mms"; "prospero"; "rtsp"; "rtspu"; ""; "sftp"; "svn";
   "svn+ssh"].

Definition uses_netloc : list string :=
  ["ftp"; "http"; "gopher"; "nntp"; "telnet"; "imap"; "wais"; "file";
   "mms"; "https"; "shttp"; "snews"; "prospero"; "rtsp"; "rtspu";
   "rsync"; ""; "svn"; "svn+ssh"; "sftp"; "nfs"; "git"; "git+ssh"].

Definition uses_params : list string :=
  ["ftp"; "hdl"; "prospero"; "http"; "imap"; "https"; "shttp"; "rtsp";
   "rtspu"; "sip"; "sips"; "mms"; ""; "sftp"; "tel"].

Definition in_list (s : string) (l : list string) : bool :=
  existsb (String.eqb s) l.

Definition is_digit (c : ascii) : bool := between "0" "9" c.

(** [c in scheme_chars] *)
Definition is_scheme_char (c : ascii) : bool :=
  between "a" "z" c || between "A" "Z" c || is_digit c
  || Ascii.eqb c "+" || Ascii.eqb c "-" || Ascii.eqb c ".".

Definition lower_char (c : ascii) : ascii :=
  if between "A" "Z" c then ascii_of_N (N_of_ascii c + 32) else c.

(** [s.lower()], for a string of scheme characters *)
Fixpoint lower (s : string) : string :=
  match s with
  | EmptyString => EmptyString
  | String c rest => String (lower_char c) (lower rest)
  end.

Record SplitResult := mkSplit {
  s_scheme : pystring; s_netloc : pystring; s_path : pystring;
  s_query : pystring; s_fragment : pystring }.

Record ParseResult := mkParse {
  p_scheme : pystring; p_netloc : pystring; p_path : pystring;
  p_params : pystring; p_query : pystring; p_fragment : pystring }.

Definition is_netloc_delim (c : ascii) : bool :=
  Ascii.eqb c "/" || Ascii.eqb c "?" || Ascii.eqb c "#".

(** [(url[:delim], url[delim:])] for the earliest of [/ ? #] in [url]. *)
Fixpoint span_netloc (url : string) : string * string :=
  match url with
  | EmptyString => (EmptyString, EmptyString)
  | String c rest =>
      if is_netloc_delim c then (EmptyString, url)
      else let (dom, tl) := span_netloc rest in (String c dom, tl)
  end.

(** [_splitnetloc(url, 2)], when [url[:2] == '//']; [None] otherwise. *)
Definition splitnetloc (url : string) : option (string * string) :=
  match url with
  | String "/" (String "/" rest) => Some (span_netloc rest)
  | _ => None
  end.

(** The part of [urlsplit] that both of its branches share: the network
    location, the fragment and the query are cut off [url].  What is
    cut off [url] has the type of [url]; what is absent is the [str]
    ['']. *)
Definition urlsplit_tail (sch url : pystring) : exn + SplitResult :=
  let '(nl, rest) := match splitnetloc (chars url) with
                     | Some (nl, tl) => (slice_of url nl, tl)
                     | None => (py_str EmptyString, chars url)
                     end in
  if (contains "[" (chars nl) && negb (contains "]" (chars nl)))
     || (contains "]" (chars nl) && negb (contains "[" (chars nl)))
  then inl ValueError
  else
    let '(rest, frag) := match partition "#" rest with
                         | Some (u, f) => (u, slice_of url f)
                         | None => (rest, py_str EmptyString)
                         end in
    let '(rest, qry) := match partition "?" rest with
                        | Some (u, q) => (u, slice_of url q)
                        | None => (rest, py_str EmptyString)
                        end in
    inr (mkSplit sch nl (slice_of url rest) qry frag).

(** [urlsplit(url, scheme)] *)
Definition urlsplit (url sch : pystring) : exn + SplitResult :=
  match partition ":" (chars url) with
  | Some (String c pre as before, rest) =>
      if String.eqb before "http"
      then urlsplit_tail (slice_of url (lower before)) (slice_of url rest)
      else if string_forallb is_scheme_char before
              && (bool_decide (rest = EmptyString)
                  || negb (string_forallb is_digit rest))
           then urlsplit_tail (slice_of url (lower before)) (slice_of url rest)
           else urlsplit_tail sch url
  | _ => urlsplit_tail sch url
  end.

(** [_splitparams(url)], called when [';' in url]. *)
Definition splitparams (url : pystring) : pystring * pystring :=
  let (head, tail) := rsplit_sep (chars url) in
  match partition ";" tail with
  | Some (a, b) => (slice_of url (head ++ a), slice_of url b)
  | None => (url, py_str EmptyString)
  end.

(** [urlparse(url, scheme)] *)
Definition urlparse (url sch : pystring) : exn + ParseResult :=
  match urlsplit url sch with
  | inl e => inl e
  | inr r =>
      let '(path, prm) :=
        if in_list (chars (s_scheme r)) uses_params
           && contains ";" (chars (s_path r))
        then splitparams (s_path r)
        else (s_path r, py_str EmptyString) in
      inr (mkParse (s_scheme r) (s_netloc r) path prm (s_query r) (s_fragment r))
  end.

(** [urlunsplit(data)] *)
Definition urlunsplit (r : SplitResult) : exn + pystring :=
  let url := s_path r in
  url <~ (if negb (py_empty (s_netloc r))
             || (negb (py_empty (s_scheme r))
                 && in_list (chars (s_scheme r)) uses_netloc
                 && negb (bool_decide (String.substring 0 2 (chars url) = "//")))
          then
            url <~ (if negb (py_empty url) && negb (startswith_sep (chars url))
                    then py_add (py_str "/") url else inr url) ;;
            start <~ py_add (py_str "//")
                       (if py_empty (s_netloc r) then py_str EmptyString
                        else s_netloc r) ;;
            py_add start url
          else inr url) ;;
  url <~ (if negb (py_empty (s_scheme r))
          then start <~ py_add (s_scheme r) (py_str ":") ;; py_add start url
          else inr url) ;;
  url <~ (if negb (py_empty (s_query r))
          then start <~ py_add url (py_str "?") ;; py_add start (s_query r)
          else inr url) ;;
  if negb (py_empty (s_fragment r))
  then start <~ py_add url (py_str "#") ;; py_add start (s_fragment r)
  else inr url.

(** [urlunparse(data)]; ["%s;%s" % (url, params)] mixes the two types
    as [url + ';' + params] does. *)
Definition urlunparse (r : ParseResult) : exn + pystring :=
  url <~ (if negb (py_empty (p_params r))
          then start <~ py_add (p_path r) (py_str ";") ;;
               py_add start (p_params r)
          else inr (p_path r)) ;;
  urlunsplit (mkSplit (p_scheme r) (p_netloc r) url (p_query r) (p_fragment r)).

(** [segments[-1] = ''] *)
Definition set_last_empty (segments : list pystring) : list pystring :=
  (removelast segments ++ [py_str EmptyString])%list.

Definition is_dot (s : pystring) : bool := String.eqb (chars s) ".".
Definition is_dotdot (s : pystring) : bool := String.eqb (chars s) "..".

(** One pass of the inner [while i < n] loop of [urljoin]: the first
    [i] with [1 <= i < len(segments) - 1], [segments[i] == '..'] and
    [segments[i-1] not in ('', '..')] has [segments[i-1:i+1]] deleted;
    [None] when the loop ends without a [break]. *)
Fixpoint remove_dotdot (segments : list pystring) : option (list pystring) :=
  match segments with
  | prev :: rest =>
      match rest with
      | cur :: ((_ :: _) as after) =>
          if is_dotdot cur && negb (py_empty prev) && negb (is_dotdot prev)
          then Some after
          else match remove_dotdot rest with
               | Some rest' => Some (prev :: rest')
               | None => None
               end
      | _ => None
      end
  | [] => None
  end.

(** The outer [while 1] loop; every pass that deletes shortens the list
    by two, so [length segments] passes are enough. *)
Fixpoint remove_dotdots (fuel : nat) (segments : list pystring)
  : list pystring :=
  match fuel with
  | O => segments
  | S fuel' =>
      match remove_dotdot segments with
      | Some segments' => remove_dotdots fuel' segments'
      | None => segments
      end
  end.

(** ['/'.join(segments)]: the result is a [unicode] as soon as one
    segment is, and the [str] segments are decoded then. *)
Definition join_segments_sep (segments : list pystring) : exn + pystring :=
  if existsb is_unicode segments
  then if forallb (fun s => is_unicode s || is_ascii (chars s)) segments
       then inr (py_unicode (join_sep (List.map chars segments)))
       else inl UnicodeDecodeError
  else inr (py_str (join_sep (List.map chars segments))).

(** The segment arithmetic of [urljoin]. *)
Definition join_segments (bpath path : pystring) : exn + pystring :=
  let segments :=
    (removelast (List.map (slice_of bpath) (split_sep (chars bpath)))
     ++ List.map (slice_of path) (split_sep (chars path)))%list in
  let segments := if is_dot (List.last segments (py_str EmptyString))
                  then set_last_empty segments else segments in
  let segments := List.filter (fun s => negb (is_dot s)) segments in
  let segments := remove_dotdots (List.length segments) segments in
  let segments :=
    if bool_decide (List.map chars segments = [EmptyString; ".."])
    then set_last_empty segments
    else if (2 <=? List.length segments)%nat
            && is_dotdot (List.last segments (py_str EmptyString))
         then (removelast (removelast segments) ++ [py_str EmptyString])%list
         else segments in
  join_segments_sep segments.

(** [urljoin(base, url)] *)
Definition urljoin (base url : pystring) : exn + pystring :=
  if py_empty base then inr url
  else if py_empty url then inr base
  else
    match urlparse base (py_str EmptyString) with
    | inl e => inl e
    | inr b =>
        match urlparse url (p_scheme b) with
        | inl e => inl e
        | inr u =>
            let scheme := chars (p_scheme u) in
            if negb (String.eqb scheme (chars (p_scheme b)))
               || negb (in_list scheme uses_relative)
            then inr url
            else if in_list scheme uses_netloc && negb (py_empty (p_netloc u))
            then urlunparse u
            else
              let nl := if in_list scheme uses_netloc
                        then p_netloc b else p_netloc u in
              if startswith_sep (chars (p_path u))
              then urlunparse (mkParse (p_scheme u) nl (p_path u)
                                 (p_params u) (p_query u) (p_fragment u))
              else if py_empty (p_path u) && py_empty (p_params u)
              then urlunparse (mkParse (p_scheme u) nl (p_path b) (p_params b)
                                 (if py_empty (p_query u)
                                  then p_query b else p_query u)
                                 (p_fragment u))
              else
                joined <~ join_segments (p_path b) (p_path u) ;;
                urlunparse (mkParse (p_scheme u) nl joined
                              (p_params u) (p_query u) (p_fragment u))
        end
    end.

(** The URL [urljoin(base, url)], as characters. *)
Definition urljoin_str (base url : string) : exn + string :=
  joined <~ urljoin (py_str base) (py_str url) ;; inr (chars joined).

Definition urljoin_unicode (base url : string) : exn + string :=
  joined <~ urljoin (py_str base) (py_unicode url) ;; inr (chars joined).

(** ** JSON values and [json.dumps] *)

(** The Python value [r.json()] returns.  A [JObj] lists the items of
    the [dict] in its iteration order; a float is carried as its [repr]. *)
#[warnings="-register-all"]
Inductive json :=
  | JNull
  | JBool (b : bool)
  | JInt (n : Z)
  | JFloat (repr : string)
  | JStr (s : string)
  | JArr (items : list json)
  | JObj (members : list (string * json)).

Definition quote : ascii := "034"%char.
Definition backslash : ascii := "092"%char.

Definition hex_digit (n : N) : ascii :=
  if (n <? 10)%N then ascii_of_N (48 + n) else ascii_of_N (87 + n).

(** The replacement [py_encode_basestring_ascii] makes for one
    character (code points up to 255). *)
Definition escape_char (c : ascii) : string :=
  if Ascii.eqb c quote then String backslash (String quote EmptyString)
  else if Ascii.eqb c backslash then String backslash (String backslash EmptyString)
  else if Ascii.eqb c "010" then String backslash "n"
  else if Ascii.eqb c "013" then String backslash "r"
  else if Ascii.eqb c "009" then String backslash "t"
  else if Ascii.eqb c "008" then String backslash "b"
  else if Ascii.eqb c "012" then String backslash "f"
  else if between " " "~" c then String c EmptyString
  else String backslash
         ("u00" ++ String (hex_digit (N_of_ascii c / 16))
                     (String (hex_digit (N_of_ascii c mod 16)) EmptyString)).

Fixpoint escape (s : string) : string :=
  match s with
  | EmptyString => EmptyString
  | String c rest => escape_char c ++ escape rest
  end.

Definition encode_basestring_ascii (s : string) : string :=
  String quote (escape s ++ String quote EmptyString).

(** [json.dumps(v)] with the default separators [', '] and [': ']. *)
Fixpoint json_dumps (v : json) : string :=
  match v with
  | JNull => "null"
  | JBool true => "true"
  | JBool false => "false"
  | JInt n => str_of_Z n
  | JFloat repr => repr
  | JStr s => encode_basestring_ascii s
  | JArr items =>
      "[" ++ (fix items_dumps (l : list json) : string :=
                match l with
                | [] => EmptyString
                | [x] => json_dumps x
                | x :: rest => json_dumps x ++ ", " ++ items_dumps rest
                end) items ++ "]"
  | JObj members =>
      "{" ++ (fix members_dumps (l : list (string * json)) : string :=
                match l with
                | [] => EmptyString
                | [(k, x)] => encode_basestring_ascii k ++ ": " ++ json_dumps x
                | (k, x) :: rest =>
                    encode_basestring_ascii k ++ ": " ++ json_dumps x ++ ", "
                    ++ members_dumps rest
                end) members ++ "}"
  end.

(** [v[key]] for a string [key]. *)
Definition getitem (v : json) (key : string) : exn + json :=
  match v with
  | JObj members =>
      match List.find (fun kv => String.eqb (fst kv) key) members with
      | Some (_, x) => inr x
      | None => inl KeyError
      end
  | _ => inl TypeError
  end.

(** The values [for d in v] goes through. *)
Definition iterate (v : json) : exn + list json :=
  match v with
  | JArr items => inr items
  | JObj members => inr (List.map (fun kv => JStr (fst kv)) members)
  | JStr s => inr (List.map (fun c => JStr (String c EmptyString))
                            (list_ascii_of_string s))
  | _ => inl TypeError
  end.

(** [[d[key] for d in ds]] *)
Fixpoint getitems (key : string) (ds : list json) : exn + list json :=
  match ds with
  | [] => inr []
  | d :: rest =>
      match getitem d key with
      | inl e => inl e
      | inr x =>
          match getitems key rest with
          | inl e => inl e
          | inr xs => inr (x :: xs)
          end
      end
  end.

(** [[d['version'] for d in body['versions']]] *)
Definition notices_of (body : json) : exn + list json :=
  match getitem body "versions" with
  | inl e => inl e
  | inr versions =>
      match iterate versions with
      | inl e => inl e
      | inr ds => getitems "version" ds
      end
  end.

(** ** The world: HTTP responses, the file system, the log *)

(** A [requests.Response]: [request_url] is [response.request.url] and
    [json_body] is what [response.json()] returns, [None] when it raises
    [ValueError]. *)
Record response := mkResponse {
  status_code : Z;
  reason : string;
  text : string;
  request_url : string;
  json_body : option json }.

(** What [requests.get(url)] does, given the URLs requested before. *)
Definition network := list string -> string -> exn + response.

Inductive node := File (content : string) | Dir.

Inductive level := INFO | ERROR.

Inductive printed := Help.

(** The files and directories are held by name, the name being the
    path as the program writes it.  The model does not resolve [.],
    [..] or an empty component and knows no links: it is the file
    system as seen through paths without such components, one name for
    each file. *)
Record state := mkState {
  fs : gmap string node;
  log : list (level * string);
  requests : list string;
  stdout : list printed }.

Inductive result (A : Type) :=
  | Ok (a : A) (st : state)
  | Raise (e : exn) (st : state).
Arguments Ok {A} a st.
Arguments Raise {A} e st.

Definition M (A : Type) : Type := state -> result A.

Definition ret {A} (a : A) : M A := fun st => Ok a st.

Definition raise {A} (e : exn) : M A := fun st => Raise e st.

Definition bind {A B} (m : M A) (k : A -> M B) : M B :=
  fun st => match m st with
            | Ok a st' => k a st'
            | Raise e st' => Raise e st'
            end.

Notation "x <- m ;; k" := (bind m (fun x => k))
  (at level 100, m at next level, right associativity).
Notation "m ;;; k" := (bind m (fun _ => k))
  (at level 100, right associativity).

Definition lift {A} (r : exn + A) : M A :=
  match r with
  | inl e => raise e
  | inr a => ret a
  end.

(** [try: body / except: handler] with a bare [except]. *)
Definition try_except {A} (body handler : M A) : M A :=
  fun st => match body st with
            | Ok a st' => Ok a st'
            | Raise _ st' => handler st'
            end.

Definition state_of {A} (r : result A) : state :=
  match r with
  | Ok _ st => st
  | Raise _ st => st
  end.

Definition set_fs (f : gmap string node) (st : state) : state :=
  mkState f (log st) (requests st) (stdout st).

Definition logger (lv : level) (msg : string) : M unit :=
  fun st => Ok tt (mkState (fs st) (log st ++ [(lv, msg)])%list
                           (requests st) (stdout st)).

Definition logger_info := logger INFO.
Definition logger_error := logger ERROR.

(** [parser.print_help()] *)
Definition print_help : M unit :=
  fun st => Ok tt (mkState (fs st) (log st) (requests st)
                           (stdout st ++ [Help])%list).

(** [os.stat]: the empty name does not exist, the root always does. *)
Definition stat (f : gmap string node) (p : string) : option node :=
  if bool_decide (p = EmptyString) then None
  else if all_sep p then Some Dir
  else f !! p.

(** [os.path.exists(p)] *)
Definition os_path_exists (p : string) : M bool :=
  fun st => Ok (bool_decide (is_Some (stat (fs st) p))) st.

(** The error the kernel reports when the directory holding [p] is
    missing or is not a directory; a name without directory part lies
    in the working directory. *)
Definition parent_error (f : gmap string node) (p : string) : option errno :=
  let d := os_path_dirname p in
  if bool_decide (d = EmptyString) then None
  else match stat f d with
       | Some Dir => None
       | Some (File _) => Some ENOTDIR
       | None => Some ENOENT
       end.

(** [os.mkdir(p)] *)
Definition os_mkdir (p : string) : M unit :=
  fun st =>
    if bool_decide (p = EmptyString) then Raise (OSError ENOENT) st
    else match parent_error (fs st) p with
         | Some e => Raise (OSError e) st
         | None =>
             match stat (fs st) p with
             | Some _ => Raise (OSError EEXIST) st
             | None => Ok tt (set_fs (<[p := Dir]> (fs st)) st)
             end
         end.

(** [os.makedirs(name)]; [fuel] bounds the depth of the recursion, which
    goes to a strictly shorter name. *)
Fixpoint makedirs_aux (fuel : nat) (name : string) : M unit :=
  match fuel with
  | O => raise RuntimeError
  | S fuel' =>
      let (head, tail) := os_path_split name in
      let (head, tail) := if bool_decide (tail = EmptyString)
                          then os_path_split head else (head, tail) in
      if negb (bool_decide (head = EmptyString))
         && negb (bool_decide (tail = EmptyString))
      then
        present <- os_path_exists head ;;
        if negb present then
          (fun st => match makedirs_aux fuel' head st with
                     | Raise (OSError EEXIST) st' => Ok tt st'
                     | other => other
                     end) ;;;
          if String.eqb tail "." then ret tt else os_mkdir name
        else os_mkdir name
      else os_mkdir name
  end.

Definition os_makedirs (name : string) : M unit :=
  makedirs_aux (S (String.length name)) name.

(** [open(p, 'w')]: the file is created or truncated. *)
Definition open_w (p : string) : M unit :=
  fun st =>
    if bool_decide (p = EmptyString) then Raise (IOError ENOENT) st
    else match parent_error (fs st) p with
         | Some e => Raise (IOError e) st
         | None =>
             if endswith_sep p then Raise (IOError EISDIR) st
             else match stat (fs st) p with
                  | Some Dir => Raise (IOError EISDIR) st
                  | _ => Ok tt (set_fs (<[p := File EmptyString]> (fs st)) st)
                  end
         end.

(** Writing [content] to the open file [p] and closing it. *)
Definition write_file (p content : string) : M unit :=
  fun st => Ok tt (set_fs (<[p := File content]> (fs st)) st).

(** [r.json()] *)
Definition response_json (r : response) : M json :=
  match json_body r with
  | Some v => ret v
  | None => raise ValueError
  end.

(** A value [n] of a JSON document as a component of [os.path.join]:
    a value that is no string has no [startswith]. *)
Definition as_str (v : json) : exn + string :=
  match v with
  | JStr s => inr s
  | _ => inl AttributeError
  end.

(** [os.path.join(path, n)] for a [str] [path] and a value [n] of the
    JSON document. *)
Definition join_value (path : string) (n : json) : exn + string :=
  n <~ as_str n ;; join_step_unicode path n.

(** [os.path.join('diff', regulation, notice, n)] *)
Definition join_diff (regulation : string) (notice n : json) : exn + string :=
  path <~ join_value (os_path_join "diff" [regulation]) notice ;;
  n <~ as_str n ;;
  inr (join_step path n).

(** [[f(x) for x in l]] *)
Fixpoint map_exn {A B} (f : A -> exn + B) (l : list A) : exn + list B :=
  match l with
  | [] => inr []
  | x :: rest => y <~ f x ;; ys <~ map_exn f rest ;; inr (y :: ys)
  end.

(** A loop that extends a list with one list per round. *)
Definition extend_exn {A B} (f : A -> exn + list B) (l : list A)
  : exn + list B :=
  found <~ map_exn f l ;; inr (List.concat found).

Definition layers : list string :=
  ["analyses"; "external-citations"; "formatting"; "graphics";
   "internal-citations"; "interpretations"; "keyterms"; "meta";
   "paragraph-markers"; "terms"; "toc"].

(** The parsed command line. *)
Record args := mkArgs {
  api_base : option string;
  stub_base : string;
  regulation : option string;
  paths : list string }.

(** The exit status of the process. *)
Definition exit_status {A} (r : result A) : Z :=
  match r with
  | Ok _ _ => 0
  | Raise (SystemExit code) _ => code
  | Raise _ _ => 1
  end.

Definition initial_state : state := mkState ∅ [] [] [].

(** ** The script *)

Section Script.

(** [soup_select html selector]: the [.text] of the elements that
    [BeautifulSoup(html, 'html.parser').select(selector)] returns. *)
Variable soup_select : string -> string -> list string.

(** The server the run talks to. *)
Variable http : network.

(** [requests.get(url)] *)
Definition requests_get (url : string) : M response :=
  fun st =>
    let st' := mkState (fs st) (log st) (requests st ++ [url])%list (stdout st) in
    match http (requests st) url with
    | inl e => Raise e st'
    | inr r => Ok r st'
    end.

(** [soup.select(selector)[0].text] *)
Definition select_first (html selector : string) : M string :=
  match soup_select html selector with
  | found :: _ => ret found
  | [] => raise IndexError
  end.

(** The title and the exception value are [unicode]; [str.format]
    encodes them, inside the [try]. *)
Definition handle_error (r : response) : M unit :=
  try_except
    (exception <- select_first (text r) "#summary h1" ;;
     exception_value <- select_first (text r) "#summary .exception_value" ;;
     exception <- lift (encode_ascii exception) ;;
     exception_value <- lift (encode_ascii exception_value) ;;
     logger_error ("error sending " ++ str_of_Z (status_code r) ++ ": "
                   ++ exception ++ ", " ++ exception_value))
    (logger_error ("error getting " ++ request_url r ++ ": "
                   ++ str_of_Z (status_code r) ++ " " ++ reason r)).

(** The paths are [unicode] strings. *)
Definition determine_regulation_paths (api_base regulation : string)
  : M (list string) :=
  reg_url <- lift (urljoin_str api_base ("regulation/" ++ regulation)) ;;
  r <- requests_get reg_url ;;
  (if negb (status_code r =? 200)%Z then handle_error r else ret tt) ;;;
  body <- response_json r ;;
  notices <- lift (notices_of body) ;;
  logger_info ("generating paths for regulation " ++ regulation ++ "...") ;;;
  let regulation_base := os_path_join "regulation" [regulation] in
  regulations <- lift (map_exn (join_value regulation_base) notices) ;;
  logger_info ("generating notice paths for regulation " ++ regulation ++ "...") ;;;
  notice_paths <- lift (map_exn (join_value "notice") notices) ;;
  logger_info ("generating layer paths for regulation " ++ regulation ++ "...") ;;;
  layer_paths <-
    lift (extend_exn
            (fun layer =>
               map_exn (join_value (os_path_join "layer" [layer; regulation]))
                       notices)
            layers) ;;
  logger_info ("generating diff paths for regulation " ++ regulation ++ "...") ;;;
  diffs <-
    lift (extend_exn
            (fun notice => map_exn (join_diff regulation notice) notices)
            notices) ;;
  ret (regulations ++ notice_paths ++ layer_paths ++ diffs)%list.

(** [path] is one of the paths above, a [unicode]. *)
Definition get_from_server (api_base stub_base path : string) : M unit :=
  reg_url <- lift (urljoin_unicode api_base path) ;;
  r <- requests_get reg_url ;;
  if negb (status_code r =? 200)%Z then handle_error r
  else
    file_path <- lift (join_step_unicode stub_base path) ;;
    shown <- lift (encode_ascii file_path) ;;
    logger_info ("getting " ++ shown) ;;;
    let directory := os_path_dirname file_path in
    present <- os_path_exists directory ;;
    (if negb present then os_makedirs directory else ret tt) ;;;
    open_w file_path ;;;
    body <- response_json r ;;
    write_file file_path (json_dumps body).

(** [[get_from_server(api_base, stub_base, f) for f in paths]] *)
Fixpoint fetch_all (api_base stub_base : string) (paths : list string)
  : M unit :=
  match paths with
  | [] => ret tt
  | f :: rest =>
      get_from_server api_base stub_base f ;;;
      fetch_all api_base stub_base rest
  end.

Definition usage_exit (msg : string) : M unit :=
  logger_error msg ;;; print_help ;;; raise (SystemExit 1).

Definition main (a : args) : M unit :=
  match api_base a with
  | None => usage_exit "ERROR: -a api_base is required."
  | Some base =>
      match regulation a with
      | Some reg =>
          found <- determine_regulation_paths base reg ;;
          fetch_all base (stub_base a) found
      | None =>
          usage_exit "no paths or regulation to get. Use -r or -p to specify."
      end
  end.

End Script.

(** ** Vocabulary of the properties *)

(** *** Paths *)

(** The separator [os.path.join] puts after [path]. *)
Definition glue (path : string) : string :=
  if negb (bool_decide (path = "")) && negb (endswith_sep path) then "/" else "".

(** A name that is not empty and neither begins nor ends with [/]. *)
Definition clean (s : string) : bool :=
  negb (bool_decide (s = "")) && negb (startswith_sep s) && negb (endswith_sep s).

(** The list [determine_regulation_paths] builds when no [os.path.join]
    raises, for notices that are strings. *)
Definition regulation_paths (regulation : string) (notices : list string)
  : list string :=
  let regulation_base := os_path_join "regulation" [regulation] in
  (List.map (fun n => os_path_join regulation_base [n]) notices
   ++ List.map (fun n => os_path_join "notice" [n]) notices
   ++ List.flat_map
        (fun layer =>
           List.map (fun n => os_path_join "layer" [layer; regulation; n]) notices)
        layers
   ++ List.flat_map
        (fun notice =>
           List.map (fun n => os_path_join "diff" [regulation; notice; n]) notices)
        notices)%list.

(** The four shapes of path of a regulation, as written out with [/]. *)
Definition regulation_path (reg n : string) : string :=
  "regulation/" ++ reg ++ "/" ++ n.
Definition notice_path (n : string) : string :=
  "notice/" ++ n.
Definition layer_path (layer reg n : string) : string :=
  "layer/" ++ layer ++ "/" ++ reg ++ "/" ++ n.
Definition diff_path (reg n1 n2 : string) : string :=
  "diff/" ++ reg ++ "/" ++ n1 ++ "/" ++ n2.

(** [p] is one of the paths of regulation [reg] with notices [notices]. *)
Definition listed (reg : string) (notices : list string) (p : string) : Prop :=
  (exists n, In n notices /\ p = regulation_path reg n)
  \/ (exists n, In n notices /\ p = notice_path n)
  \/ (exists layer n,
        In layer ["analyses"; "external-citations"; "formatting"; "graphics";
                  "internal-citations"; "interpretations"; "keyterms"; "meta";
                  "paragraph-markers"; "terms"; "toc"]
        /\ In n notices /\ p = layer_path layer reg n)
  \/ (exists n1 n2, In n1 notices /\ In n2 notices /\ p = diff_path reg n1 n2).

(** The separator [os.path.join] puts between [x/reg] and what follows. *)
Definition glue_after (reg : string) : string :=
  if bool_decide (reg = "") || endswith_sep reg then "" else "/".

(** No [/] occurs in [s]. *)
Definition slash_free (s : string) : bool := negb (contains sep s).

(** The separator [os.path.join] puts after a slash-free [n1] that
    follows a [/]. *)
Definition glue_notice (n1 : string) : string :=
  if bool_decide (n1 = "") then "" else "/".

(** [s[:1]] *)
Definition first_char (s : string) : option ascii :=
  match s with
  | String c _ => Some c
  | EmptyString => None
  end.

(** The paths [os.path.join] builds for an id that does not begin with
    [/] and slash-free notices. *)
Definition regulation_path_relative (reg n : string) : string :=
  "regulation/" ++ reg ++ glue_after reg ++ n.
Definition layer_path_relative (layer reg n : string) : string :=
  "layer/" ++ layer ++ String sep (reg ++ glue_after reg ++ n).
Definition diff_path_relative (reg n1 n2 : string) : string :=
  "diff/" ++ reg ++ glue_after reg ++ n1 ++ glue_notice n1 ++ n2.

(** *** URLs *)

(** The parts of a URL are byte strings. *)
Definition str_split (r : SplitResult) : bool :=
  negb (is_unicode (s_scheme r)) && negb (is_unicode (s_netloc r))
  && negb (is_unicode (s_path r)) && negb (is_unicode (s_query r))
  && negb (is_unicode (s_fragment r)).

Definition str_parse (r : ParseResult) : bool :=
  negb (is_unicode (p_scheme r)) && negb (is_unicode (p_netloc r))
  && negb (is_unicode (p_path r)) && negb (is_unicode (p_params r))
  && negb (is_unicode (p_query r)) && negb (is_unicode (p_fragment r)).

(** *** JSON documents *)

(** [s] is made of printable ASCII characters, [' '] to ['~']: it holds
    no control character, no line break and no byte above 127. *)
Definition printable (s : string) : bool :=
  string_forallb (between " " "~") s.

(** The floats of [v] are carried as printable text, as the [repr] of a
    Python float is. *)
Fixpoint floats_printable (v : json) : bool :=
  match v with
  | JFloat repr => printable repr
  | JArr items => forallb floats_printable items
  | JObj members =>
      forallb (fun kv => match kv with (_, x) => floats_printable x end) members
  | _ => true
  end.

(** Induction on a JSON value, with the property at hand for the items
    of an array and the members of an object. *)
Section JsonInduction.

Variable P : json -> Prop.
Hypothesis Hnull : P JNull.
Hypothesis Hbool : forall b, P (JBool b).
Hypothesis Hint : forall n, P (JInt n).
Hypothesis Hfloat : forall repr, P (JFloat repr).
Hypothesis Hstr : forall s, P (JStr s).
Hypothesis Harr : forall items, List.Forall P items -> P (JArr items).
Hypothesis Hobj :
  forall members, List.Forall (fun kv => P (snd kv)) members -> P (JObj members).

Fixpoint json_induction (v : json) : P v :=
  match v with
  | JNull => Hnull
  | JBool b => Hbool b
  | JInt n => Hint n
  | JFloat repr => Hfloat repr
  | JStr s => Hstr s
  | JArr items =>
      Harr items
        ((fix go (l : list json) : List.Forall P l :=
            match l with
            | [] => @List.Forall_nil _ P
            | x :: rest =>
                @List.Forall_cons _ P x rest (json_induction x) (go rest)
            end) items)
  | JObj members =>
      Hobj members
        ((fix go (l : list (string * json))
            : List.Forall (fun kv => P (snd kv)) l :=
            match l with
            | [] => @List.Forall_nil _ (fun kv => P (snd kv))
            | kv :: rest =>
                @List.Forall_cons _ (fun kv => P (snd kv)) kv rest
                  (match kv as kv0 return P (snd kv0) with
                   | (_, x) => json_induction x
                   end)
                  (go rest)
            end) members)
  end.

End JsonInduction.

(** *** The file system *)



(** Every entry lies in a directory that exists. *)
Definition well_formed (f : gmap string node) : Prop :=
  forall k n, f !! k = Some n -> parent_error f k = None.

(** [os.makedirs(name)] can create [name]: [name] does not exist, its
    last component is neither empty nor [.], and the directory that is
    to hold it exists, is the working directory, or can be created in
    the same way. *)
Fixpoint creatable_aux (fuel : nat) (f : gmap string node) (name : string)
  : bool :=
  match fuel with
  | O => false
  | S fuel' =>
      let (head, tail) := os_path_split name in
      negb (bool_decide (tail = "")) && negb (String.eqb tail ".")
      && negb (bool_decide (is_Some (stat f name)))
      && (bool_decide (head = "")
          || match stat f head with
             | Some Dir => true
             | Some (File _) => false
             | None => creatable_aux fuel' f head
             end)
  end.



(** One change of the file system: a directory is made where nothing
    was, or a file is created or overwritten where no directory stands;
    either way in a directory that exists. *)
Inductive fs_step (f : gmap string node) : gmap string node -> Prop :=
  | fs_step_mkdir p :
      p <> "" -> parent_error f p = None -> stat f p = None ->
      fs_step f (<[p := Dir]> f)
  | fs_step_write p c :
      p <> "" -> endswith_sep p = false -> parent_error f p = None ->
      stat f p <> Some Dir ->
      fs_step f (<[p := File c]> f).

(** Every entry of [f] is an entry of [f'], of the same kind: a
    directory is still a directory, a file is still a file. *)
Definition kept (f f' : gmap string node) : Prop :=
  forall k,
    match f !! k with
    | Some Dir => f' !! k = Some Dir
    | Some (File _) => exists c, f' !! k = Some (File c)
    | None => True
    end.

(** *** Runs *)

(** The state after [entries] have been logged. *)
Definition logged (entries : list (level * string)) (st : state) : state :=
  mkState (fs st) (log st ++ entries)%list (requests st) (stdout st).

(** The state after [url] has been requested. *)
Definition requested (url : string) (st : state) : state :=
  mkState (fs st) (log st) (requests st ++ [url])%list (stdout st).

(** The error title and the exception value of an HTML error page, when
    both [#summary h1] and [#summary .exception_value] select something. *)
Definition extraction (soup : string -> string -> list string) (r : response)
  : option (string * string) :=
  match soup (text r) "#summary h1", soup (text r) "#summary .exception_value" with
  | title :: _, value :: _ => Some (title, value)
  | _, _ => None
  end.

(** The line [handle_error] logs when the extraction succeeds ... *)
Definition sending_message (r : response) (title value : string) : string :=
  "error sending " ++ str_of_Z (status_code r) ++ ": " ++ title ++ ", " ++ value.

(** ... and the one it logs when it does not. *)
Definition getting_message (r : response) : string :=
  "error getting " ++ request_url r ++ ": " ++ str_of_Z (status_code r)
  ++ " " ++ reason r.

(** The line [handle_error] logs: the first one when the extraction
    succeeds and what it found is ASCII, the second one otherwise. *)
Definition error_message (soup : string -> string -> list string) (r : response)
  : string :=
  match extraction soup r with
  | Some (title, value) =>
      if is_ascii title && is_ascii value then sending_message r title value
      else getting_message r
  | None => getting_message r
  end.

(** A status code of three digits, as it is written. *)
Definition digit_char (d : Z) : ascii := ascii_of_N (48 + Z.to_N d).

Definition decimal3 (n : Z) : string :=
  String (digit_char (n / 100))
    (String (digit_char (n / 10 mod 10))
       (String (digit_char (n mod 10)) "")).

(** The value of the member [key] of a JSON object. *)
Fixpoint member (key : string) (members : list (string * json)) : option json :=
  match members with
  | [] => None
  | (k, x) :: rest => if String.eqb k key then Some x else member key rest
  end.

(** The [version] of an entry of the versions array: the entry is an
    object whose member [version] is a string. *)
Definition version_of (d : json) : option string :=
  match d with
  | JObj members =>
      match member "version" members with
      | Some (JStr n) => Some n
      | _ => None
      end
  | _ => None
  end.

Fixpoint versions_of (ds : list json) : option (list string) :=
  match ds with
  | [] => Some []
  | d :: rest =>
      match version_of d, versions_of rest with
      | Some n, Some ns => Some (n :: ns)
      | _, _ => None
      end
  end.

(** The notices of the document the regulation endpoint is expected to
    return: a JSON object whose member [versions] is an array of
    objects with a string [version] each.  [None] for any other
    document. *)
Definition expected_notices (body : json) : option (list string) :=
  match body with
  | JObj members =>
      match member "versions" members with
      | Some (JArr ds) => versions_of ds
      | _ => None
      end
  | _ => None
  end.

(** A document whose [versions] are an empty object or an empty string
    where the array should be. *)
Definition empty_versions (body : json) : bool :=
  match body with
  | JObj members =>
      match member "versions" members with
      | Some (JObj []) => true
      | Some (JStr "") => true
      | _ => false
      end
  | _ => false
  end.

(** [e] is an exception other than [SystemExit]: uncaught, it ends the
    process with status 1. *)
Definition is_failure (e : exn) : bool :=
  match e with
  | SystemExit _ => false
  | _ => true
  end.

(** [[d['version'] for d in r.json()['versions']]], or what it raises. *)
Definition body_notices (r : response) : exn + list json :=
  match json_body r with
  | None => inl ValueError
  | Some body => notices_of body
  end.


(** The four lines [determine_regulation_paths] logs on its way. *)
Definition generating_log (reg : string) : list (level * string) :=
  [(INFO, "generating paths for regulation " ++ reg ++ "...");
   (INFO, "generating notice paths for regulation " ++ reg ++ "...");
   (INFO, "generating layer paths for regulation " ++ reg ++ "...");
   (INFO, "generating diff paths for regulation " ++ reg ++ "...")].

(** The state after a response [r] to a request of [url] has been
    received and, when it is an error, reported. *)
Definition received (soup : string -> string -> list string)
    (url : string) (r : response) (st : state) : state :=
  if (status_code r =? 200)%Z then requested url st
  else logged [(ERROR, error_message soup r)] (requested url st).

(** One fetch of a run: either the server answers with a status other
    than 200, which is reported by the error line [errs] holds, or the
    fetch completes and [errs] is empty. *)
Inductive settled (soup : string -> string -> list string) (http : network)
    (api_base stub_base path : string) (st st' : state)
  : list (level * string) -> Prop :=
  | settled_failed url r :
      urljoin_unicode api_base path = inr url ->
      http (requests st) url = inr r ->
      status_code r <> 200%Z ->
      st' = logged [(ERROR, error_message soup r)] (requested url st) ->
      settled soup http api_base stub_base path st st'
        [(ERROR, error_message soup r)]
  | settled_fetched url r :
      urljoin_unicode api_base path = inr url ->
      http (requests st) url = inr r ->
      status_code r = 200%Z ->
      get_from_server soup http api_base stub_base path st = Ok tt st' ->
      settled soup http api_base stub_base path st st' [].

(** A run over [paths] in which every fetch is settled; [errs] are the
    error lines of the fetches that failed, in order. *)
Inductive all_settled (soup : string -> string -> list string) (http : network)
    (api_base stub_base : string)
  : list string -> state -> state -> list (level * string) -> Prop :=
  | all_settled_nil st : all_settled soup http api_base stub_base [] st st []
  | all_settled_cons path rest st st1 st' errs1 errs :
      settled soup http api_base stub_base path st st1 errs1 ->
      all_settled soup http api_base stub_base rest st1 st' errs ->
      all_settled soup http api_base stub_base (path :: rest) st st'
        (errs1 ++ errs)%list.

Definition is_error (line : level * string) : bool :=
  match fst line with
  | ERROR => true
  | INFO => false
  end.

(** ** Sample data *)

(** The document of a regulation whose notices are [ns]. *)
Definition versions_doc (ns : list string) : json :=
  JObj [("versions", JArr (List.map (fun n => JObj [("version", JStr n)]) ns))].

Definition ok_response (url : string) (body : json) : response :=
  mkResponse 200 "OK" (json_dumps body) url (Some body).

Definition not_found (url : string) : response :=
  mkResponse 404 "NOT FOUND" "<h1>Not Found</h1>" url None.

(** A server that answers [reg_url] with the notices [ns], every URL of
    [served] with the document [{"a": 1}] and anything else with 404. *)
Definition sample_server (reg_url : string) (ns : list string)
    (served : list string) : network :=
  fun _ url =>
    if String.eqb url reg_url then inr (ok_response url (versions_doc ns))
    else if in_list url served then inr (ok_response url (JObj [("a", JInt 1)]))
    else inr (not_found url).

(** A page parser that finds nothing. *)
Definition no_soup : string -> string -> list string := fun _ _ => [].

Definition sample_api : string := "http://localhost:8000/api/".

Definition sample_reg_url : string := "http://localhost:8000/api/regulation/1026".

(** Regulation 1026 with two notices; the documents of its first notice
    are there, the rest is missing. *)
Definition sample_http : network :=
  sample_server sample_reg_url ["2011-1"; "2012-2"]
    ["http://localhost:8000/api/notice/2011-1";
     "http://localhost:8000/api/regulation/1026/2011-1"].

(** Regulation 1026 with one notice, whose notice document is the only
    one there is. *)
Definition small_http : network :=
  sample_server sample_reg_url ["2011-1"]
    ["http://localhost:8000/api/notice/2011-1"].

(** A server whose documents change with every request. *)
Definition changing_http : network :=
  fun history url =>
    inr (ok_response url (JObj [("a", JInt (Z.of_nat (List.length history)))])).

(** A server that answers the request for the regulation and then goes
    away. *)
Definition vanishing_http : network :=
  fun _ url =>
    if String.eqb url sample_reg_url
    then inr (ok_response url (versions_doc ["2011-1"]))
    else inl RequestException.


Definition sample_args : args :=
  mkArgs (Some sample_api) "stub" (Some "1026") [].

(** Regulation 1026 without any notice. *)
Definition empty_http : network := sample_server sample_reg_url [] [].

(** A server that cannot be reached. *)
Definition dead_http : network := fun _ _ => inl RequestException.


(** Regulation 1026 with a versions list that names its notice twice. *)
Definition repeating_http : network :=
  sample_server sample_reg_url ["2011-1"; "2011-1"] [].



(** A page parser that finds the title and the exception value of a
    debug page; the texts it returns are [unicode]. *)
Definition debug_soup : string -> string -> list string :=
  fun _ selector =>
    if String.eqb selector "#summary h1" then ["DoesNotExist at /regulation/1026"]
    else if String.eqb selector "#summary .exception_value"
         then ["Regulation matching query does not exist."]
         else [].

(** The same for a page whose title has an [e] with an acute accent
    (code point 233). *)
Definition accented_soup : string -> string -> list string :=
  fun _ selector =>
    if String.eqb selector "#summary h1"
    then ["DoesNotExist at /regulation/caf" ++ String "233"%char ""]
    else if String.eqb selector "#summary .exception_value"
         then ["Regulation matching query does not exist."]
         else [].

Definition server_error (url : string) : response :=
  mkResponse 500 "INTERNAL SERVER ERROR" "<h1>Server Error (500)</h1>" url None.

(** The bytes of [caf] and an [e] with an acute accent in UTF-8, as the
    command line gives them. *)
Definition cafe : string := "caf" ++ String "195"%char (String "169"%char "").

Definition cafe_reg_url : string := "http://localhost:8000/api/regulation/" ++ cafe.

(** A regulation with that id and one notice. *)
Definition cafe_http : network := sample_server cafe_reg_url ["2011-1"] [].



(** A regulation whose versions list names the notice [/tmp/2011-1];
    every other request is answered with a document that changes. *)
Definition escaping_http : network :=
  fun history url =>
    if String.eqb url sample_reg_url
    then inr (ok_response url (versions_doc ["/tmp/2011-1"]))
    else changing_http history url.

(** A notice with a character that is not ASCII, and a server that has
    its document. *)
Definition accented_notice : string := "notice/2011-" ++ String "233"%char "".

Definition accented_url : string := sample_api ++ accented_notice.

Definition accented_http : network :=
  fun _ url => inr (ok_response url (JObj [("a", JInt 1)])).

(** * Properties *)

(** ** Strings *)

Lemma append_cons c s t : String c s ++ t = String c (s ++ t).
Proof. reflexivity. Qed.

Lemma append_nil_l s : "" ++ s = s.
Proof. reflexivity. Qed.

Lemma append_nil_r s : s ++ "" = s.
Proof. induction s as [|c s IH]; [reflexivity|]. by rewrite append_cons, IH. Qed.

Lemma append_assoc s t u : (s ++ t) ++ u = s ++ (t ++ u).
Proof.
  induction s as [|c s IH]; [reflexivity|].
  by rewrite !append_cons, IH.
Qed.

Lemma append_eq_nil s t : s ++ t = "" -> s = "" /\ t = "".
Proof. destruct s; [by rewrite append_nil_l|by rewrite append_cons]. Qed.

Lemma append_inv_head s t u : s ++ t = s ++ u -> t = u.
Proof.
  induction s as [|c s IH]; [by rewrite !append_nil_l|].
  rewrite !append_cons. intros H. apply IH. congruence.
Qed.

Lemma is_sep_true c : is_sep c = true <-> c = sep.
Proof. unfold is_sep. apply Ascii.eqb_eq. Qed.

Lemma startswith_sep_append s t :
  s <> "" -> startswith_sep (s ++ t) = startswith_sep s.
Proof. destruct s; [done|reflexivity]. Qed.

Lemma endswith_sep_cons c s :
  s <> "" -> endswith_sep (String c s) = endswith_sep s.
Proof. destruct s; [done|reflexivity]. Qed.

Lemma endswith_sep_append s t :
  t <> "" -> endswith_sep (s ++ t) = endswith_sep t.
Proof.
  intros Ht. induction s as [|c s IH]; [reflexivity|].
  rewrite append_cons, endswith_sep_cons; [done|].
  intros H. apply append_eq_nil in H. tauto.
Qed.

Lemma clean_spec s :
  clean s = true <->
  s <> "" /\ startswith_sep s = false /\ endswith_sep s = false.
Proof.
  unfold clean. rewrite !andb_true_iff, !negb_true_iff.
  rewrite bool_decide_eq_false. tauto.
Qed.

(** ** [os.path.join] *)

Lemma join_step_relative path b :
  startswith_sep b = false -> join_step path b = path ++ glue path ++ b.
Proof.
  intros Hb. unfold join_step, glue. rewrite Hb.
  destruct (negb (bool_decide (path = "")) && negb (endswith_sep path)); reflexivity.
Qed.

Lemma glue_clean path :
  path <> "" -> endswith_sep path = false -> glue path = "/".
Proof.
  intros H1 H2. unfold glue. rewrite H2.
  by rewrite bool_decide_eq_false_2.
Qed.

Lemma join_step_clean path b :
  path <> "" -> endswith_sep path = false -> startswith_sep b = false ->
  join_step path b = path ++ "/" ++ b.
Proof.
  intros H1 H2 H3. by rewrite join_step_relative, glue_clean.
Qed.

(** Joining a clean name onto a path that does not end with [/] gives
    a path that does not end with [/] either. *)
Lemma join_clean path b :
  path <> "" -> endswith_sep path = false -> clean b = true ->
  join_step path b = path ++ "/" ++ b
  /\ path ++ "/" ++ b <> "" /\ endswith_sep (path ++ "/" ++ b) = false.
Proof.
  intros H1 H2 (Hb1 & Hb2 & Hb3)%clean_spec. split; [by apply join_step_clean|].
  split.
  - intros [? _]%append_eq_nil. done.
  - rewrite endswith_sep_append; [|by destruct b].
    change ("/" ++ b) with (String sep b). by rewrite endswith_sep_cons.
Qed.

Lemma os_path_join_regulation reg n :
  clean reg = true -> startswith_sep n = false ->
  os_path_join (os_path_join "regulation" [reg]) [n] = regulation_path reg n.
Proof.
  intros Hreg Hn. unfold os_path_join, regulation_path. simpl fold_left.
  destruct (join_clean "regulation" reg) as (-> & ? & ?); [done..|].
  rewrite join_step_clean by done.
  by rewrite !append_assoc.
Qed.

Lemma os_path_join_notice n :
  startswith_sep n = false -> os_path_join "notice" [n] = notice_path n.
Proof.
  intros Hn. unfold os_path_join, notice_path. simpl fold_left.
  by rewrite join_step_clean.
Qed.

Lemma os_path_join_layer layer reg n :
  clean layer = true -> clean reg = true -> startswith_sep n = false ->
  os_path_join "layer" [layer; reg; n] = layer_path layer reg n.
Proof.
  intros Hl Hreg Hn. unfold os_path_join, layer_path. simpl fold_left.
  destruct (join_clean "layer" layer) as (-> & ? & ?); [done..|].
  destruct (join_clean ("layer" ++ "/" ++ layer) reg) as (-> & ? & ?); [done..|].
  rewrite join_step_clean by done.
  by rewrite !append_assoc.
Qed.

Lemma os_path_join_diff reg n1 n2 :
  clean reg = true -> clean n1 = true -> startswith_sep n2 = false ->
  os_path_join "diff" [reg; n1; n2] = diff_path reg n1 n2.
Proof.
  intros Hreg Hn1 Hn2. unfold os_path_join, diff_path. simpl fold_left.
  destruct (join_clean "diff" reg) as (-> & ? & ?); [done..|].
  destruct (join_clean ("diff" ++ "/" ++ reg) n1) as (-> & ? & ?); [done..|].
  rewrite join_step_clean by done.
  by rewrite !append_assoc.
Qed.

(** ** Paths that do not repeat *)

Lemma contains_append c s t : contains c (s ++ t) = contains c s || contains c t.
Proof.
  induction s as [|d s IH]; [reflexivity|].
  rewrite append_cons. simpl. rewrite IH. by destruct (Ascii.eqb d c).
Qed.

Lemma slash_free_spec s : slash_free s = true <-> contains sep s = false.
Proof. unfold slash_free. apply negb_true_iff. Qed.

Lemma slash_free_relative s : slash_free s = true -> startswith_sep s = false.
Proof.
  rewrite slash_free_spec. destruct s as [|c s]; [done|]. simpl.
  unfold is_sep. by destruct (Ascii.eqb c sep).
Qed.

Lemma slash_free_endswith s : slash_free s = true -> endswith_sep s = false.
Proof.
  rewrite slash_free_spec. induction s as [|c s IH]; [done|].
  simpl. unfold is_sep. destruct (Ascii.eqb c sep); [done|]. simpl.
  intros H. destruct s; [done|]. by apply IH.
Qed.

(** Two slash-free names followed by [/] and the same text are equal. *)
Lemma slash_free_split a b x y :
  slash_free a = true -> slash_free b = true ->
  a ++ String sep x = b ++ String sep y -> a = b /\ x = y.
Proof.
  rewrite !slash_free_spec. revert b.
  induction a as [|c a IH]; intros [|d b]; simpl.
  - intros _ _ [= ->]. done.
  - intros _ Hb. rewrite append_nil_l, append_cons. intros [= <- _].
    by rewrite Ascii.eqb_refl in Hb.
  - intros Ha _. rewrite append_nil_l, append_cons. intros [= -> _].
    by rewrite Ascii.eqb_refl in Ha.
  - intros Ha Hb. rewrite !append_cons. intros [= -> H].
    apply orb_false_iff in Ha as [_ Ha], Hb as [_ Hb].
    destruct (IH b) as [-> ->]; by rewrite ?slash_free_spec.
Qed.

Lemma glue_after_spec x reg : glue (x ++ String sep reg) = glue_after reg.
Proof.
  unfold glue, glue_after.
  rewrite bool_decide_eq_false_2
    by (intros [_ H]%append_eq_nil; discriminate H).
  rewrite endswith_sep_append by done.
  destruct reg as [|c reg]; [reflexivity|].
  rewrite endswith_sep_cons by done.
  rewrite (bool_decide_eq_false_2 (String c reg = "")) by done.
  by destruct (endswith_sep (String c reg)).
Qed.

(** The path ends with [/] once the separator after [reg] is there. *)
Lemma glue_after_endswith x reg :
  endswith_sep (x ++ String sep (reg ++ glue_after reg)) = true.
Proof.
  rewrite endswith_sep_append by done. unfold glue_after.
  destruct reg as [|c reg]; [reflexivity|].
  rewrite (bool_decide_eq_false_2 (String c reg = "")) by done. cbn [orb].
  destruct (endswith_sep (String c reg)) eqn:Hend.
  - rewrite append_nil_r. by rewrite endswith_sep_cons.
  - rewrite endswith_sep_cons by (by rewrite append_cons).
    by rewrite endswith_sep_append.
Qed.

Lemma os_path_join_regulation_relative reg n :
  startswith_sep reg = false -> startswith_sep n = false ->
  os_path_join (os_path_join "regulation" [reg]) [n]
  = "regulation/" ++ reg ++ glue_after reg ++ n.
Proof.
  intros Hreg Hn. unfold os_path_join. simpl fold_left.
  rewrite (join_step_clean "regulation" reg) by done.
  rewrite join_step_relative by done.
  change ("regulation" ++ "/" ++ reg) with ("regulation" ++ String sep reg).
  rewrite glue_after_spec. by rewrite !append_assoc.
Qed.

Lemma os_path_join_layer_relative layer reg n :
  clean layer = true -> startswith_sep reg = false -> startswith_sep n = false ->
  os_path_join "layer" [layer; reg; n]
  = "layer/" ++ layer ++ String sep (reg ++ glue_after reg ++ n).
Proof.
  intros Hl Hreg Hn. unfold os_path_join. simpl fold_left.
  destruct (join_clean "layer" layer) as (-> & ? & ?); [done..|].
  rewrite (join_step_clean _ reg) by done.
  rewrite join_step_relative by done.
  change (("layer" ++ "/" ++ layer) ++ "/" ++ reg)
    with (("layer" ++ "/" ++ layer) ++ String sep reg).
  rewrite glue_after_spec. by rewrite !append_assoc.
Qed.

Lemma os_path_join_diff_relative reg n1 n2 :
  startswith_sep reg = false -> slash_free n1 = true -> startswith_sep n2 = false ->
  os_path_join "diff" [reg; n1; n2]
  = "diff/" ++ reg ++ glue_after reg ++ n1 ++ glue_notice n1 ++ n2.
Proof.
  intros Hreg Hn1 Hn2. unfold os_path_join. simpl fold_left.
  rewrite (join_step_clean "diff" reg) by done.
  rewrite (join_step_relative _ n1) by by apply slash_free_relative.
  rewrite join_step_relative by done.
  change ("diff" ++ "/" ++ reg) with ("diff" ++ String sep reg).
  rewrite glue_after_spec.
  assert (Hglue : glue (("diff" ++ String sep reg) ++ glue_after reg ++ n1)
                  = glue_notice n1).
  { unfold glue_notice. destruct n1 as [|c n1].
    - rewrite bool_decide_eq_true_2 by done. rewrite append_nil_r.
      replace (("diff" ++ String sep reg) ++ glue_after reg)
        with ("diff" ++ String sep (reg ++ glue_after reg))
        by (by rewrite append_assoc).
      unfold glue. rewrite glue_after_endswith.
      by rewrite andb_false_r.
    - rewrite bool_decide_eq_false_2 by done. apply glue_clean.
      + intros [H _]%append_eq_nil. discriminate H.
      + rewrite <- append_assoc. rewrite endswith_sep_append by done.
        by apply slash_free_endswith. }
  rewrite Hglue. by rewrite !append_assoc.
Qed.

Lemma flat_map_ext_in {A B} (f g : A -> list B) (l : list A) :
  (forall a, In a l -> f a = g a) -> List.flat_map f l = List.flat_map g l.
Proof.
  induction l as [|a l IH]; intros H; [reflexivity|].
  simpl. rewrite (H a) by (by left). f_equal. apply IH.
  intros b Hb. apply H. by right.
Qed.

Lemma or_iff_both (A B C D : Prop) :
  (A <-> B) -> (C <-> D) -> (A \/ C <-> B \/ D).
Proof. tauto. Qed.

Lemma layers_clean : Forall (fun layer => clean layer = true) layers.
Proof. repeat constructor. Qed.

Lemma regulation_paths_clean reg notices :
  clean reg = true ->
  Forall (fun n => clean n = true) notices ->
  regulation_paths reg notices =
  (List.map (regulation_path reg) notices
   ++ List.map notice_path notices
   ++ List.flat_map (fun layer => List.map (layer_path layer reg) notices) layers
   ++ List.flat_map (fun n1 => List.map (diff_path reg n1) notices) notices)%list.
Proof.
  intros Hreg Hns. rewrite List.Forall_forall in Hns.
  assert (Hstart : forall n, In n notices -> startswith_sep n = false).
  { intros n Hn. apply Hns, clean_spec in Hn. tauto. }
  unfold regulation_paths. f_equal; [|f_equal; [|f_equal]].
  - apply map_ext_in. intros n Hn. by apply os_path_join_regulation, Hstart.
  - apply map_ext_in. intros n Hn. by apply os_path_join_notice, Hstart.
  - pose proof layers_clean as Hl. induction Hl as [|layer ls Hlayer _ IH];
      [reflexivity|].
    simpl. f_equal; [|exact IH].
    apply map_ext_in. intros n Hn. by apply os_path_join_layer, Hstart.
  - apply flat_map_ext_in. intros n1 Hn1.
    apply map_ext_in. intros n Hn.
    apply os_path_join_diff; [done|by apply Hns|by apply Hstart].
Qed.

Lemma listed_spec reg notices p :
  In p (List.map (regulation_path reg) notices
        ++ List.map notice_path notices
        ++ List.flat_map (fun layer => List.map (layer_path layer reg) notices) layers
        ++ List.flat_map (fun n1 => List.map (diff_path reg n1) notices) notices)%list
  <-> listed reg notices p.
Proof.
  unfold listed. rewrite !in_app_iff, !in_map_iff, !in_flat_map.
  repeat apply or_iff_both.
  - split; intros (n & H1 & H2); eauto.
  - split; intros (n & H1 & H2); eauto.
  - split.
    + intros (layer & Hl & (n & H1 & H2)%in_map_iff). eauto 6.
    + intros (layer & n & Hl & Hn & ->). exists layer. split; [done|].
      apply in_map_iff. eauto.
  - split.
    + intros (n1 & Hn1 & (n2 & H1 & H2)%in_map_iff). eauto 6.
    + intros (n1 & n2 & Hn1 & Hn2 & ->). exists n1. split; [done|].
      apply in_map_iff. eauto.
Qed.

Lemma NoDup_flat_map {A B} (f : A -> list B) (l : list A) :
  List.NoDup l ->
  (forall x, In x l -> List.NoDup (f x)) ->
  (forall x y z, In x l -> In y l -> In z (f x) -> In z (f y) -> x = y) ->
  List.NoDup (List.flat_map f l).
Proof.
  intros Hl. induction Hl as [|a l Ha Hl IH]; intros Hf Hdisj; [constructor|].
  simpl. apply List.NoDup_app.
  - apply Hf. by left.
  - apply IH.
    + intros x Hx. apply Hf. by right.
    + intros x y z Hx Hy. apply Hdisj; by right.
  - intros z Hz (y & Hy & Hzy)%in_flat_map.
    apply Ha. rewrite (Hdisj a y z); [done|by left|by right|done|done].
Qed.

(** The paths of a regulation whose id does not begin with [/] and
    whose notices are slash-free. *)
Lemma regulation_paths_relative reg notices :
  startswith_sep reg = false ->
  Forall (fun n => slash_free n = true) notices ->
  regulation_paths reg notices =
  (List.map (regulation_path_relative reg) notices
   ++ List.map notice_path notices
   ++ List.flat_map
        (fun layer => List.map (layer_path_relative layer reg) notices) layers
   ++ List.flat_map
        (fun n1 => List.map (diff_path_relative reg n1) notices) notices)%list.
Proof.
  intros Hreg Hns. rewrite List.Forall_forall in Hns.
  assert (Hstart : forall n, In n notices -> startswith_sep n = false).
  { intros n Hn. by apply slash_free_relative, Hns. }
  unfold regulation_paths. f_equal; [|f_equal; [|f_equal]].
  - apply map_ext_in. intros n Hn.
    by apply os_path_join_regulation_relative, Hstart.
  - apply map_ext_in. intros n Hn. by apply os_path_join_notice, Hstart.
  - assert (Hl : Forall (fun layer => clean layer = true) layers)
      by repeat constructor.
    induction Hl as [|layer ls Hlayer _ IH]; [reflexivity|].
    simpl. f_equal; [|exact IH].
    apply map_ext_in. intros n Hn. by apply os_path_join_layer_relative, Hstart.
  - apply flat_map_ext_in. intros n1 Hn1.
    apply map_ext_in. intros n Hn.
    apply os_path_join_diff_relative; [done|by apply Hns|by apply Hstart].
Qed.

Lemma diff_tail_inj n1 n2 m1 m2 :
  slash_free n1 = true -> slash_free n2 = true ->
  slash_free m1 = true -> slash_free m2 = true ->
  n1 ++ glue_notice n1 ++ n2 = m1 ++ glue_notice m1 ++ m2 ->
  n1 = m1 /\ n2 = m2.
Proof.
  intros Hn1 Hn2 Hm1 Hm2. unfold glue_notice.
  assert (Hmixed : forall a b c, a <> "" ->
            slash_free c = true -> c <> a ++ String sep b).
  { intros a b c _ Hc ->. apply slash_free_spec in Hc.
    rewrite contains_append in Hc. simpl in Hc.
    by rewrite orb_true_r in Hc. }
  destruct (decide (n1 = "")) as [->|Hne1], (decide (m1 = "")) as [->|Hne2].
  - by rewrite !append_nil_l.
  - rewrite bool_decide_eq_true_2, (bool_decide_eq_false_2 (m1 = "")) by done.
    rewrite !append_nil_l. intros H. by eapply Hmixed in H.
  - rewrite (bool_decide_eq_false_2 (n1 = "")), bool_decide_eq_true_2 by done.
    rewrite !append_nil_l. intros H. symmetry in H. by eapply Hmixed in H.
  - rewrite !bool_decide_eq_false_2 by done. by apply slash_free_split.
Qed.

Lemma layers_NoDup : List.NoDup layers.
Proof.
  unfold layers.
  repeat (constructor; [simpl; intuition discriminate|]). constructor.
Qed.

Lemma layers_slash_free layer : In layer layers -> slash_free layer = true.
Proof. simpl. intuition (subst; reflexivity). Qed.

(** The first character tells the four kinds of path apart. *)
Lemma first_char_differs (c d : ascii) (l k : list string) :
  c <> d ->
  Forall (fun p => first_char p = Some c) l ->
  Forall (fun p => first_char p = Some d) k ->
  forall p, In p l -> ~ In p k.
Proof.
  rewrite !List.Forall_forall. intros Hcd Hl Hk p Hp Hp'.
  apply Hl in Hp. apply Hk in Hp'. congruence.
Qed.

Lemma Forall_flat_map {A B} (P : B -> Prop) (f : A -> list B) (l : list A) :
  (forall x, In x l -> Forall P (f x)) -> Forall P (List.flat_map f l).
Proof.
  intros H. apply List.Forall_forall. intros y (x & Hx & Hy)%in_flat_map.
  specialize (H x Hx). rewrite List.Forall_forall in H. by apply H.
Qed.

Lemma Forall_map_all {A B} (P : B -> Prop) (f : A -> B) (l : list A) :
  (forall x, P (f x)) -> Forall P (List.map f l).
Proof.
  intros H. apply List.Forall_forall. intros y (x & <- & _)%in_map_iff. apply H.
Qed.

(** The paths of a regulation whose id does not begin with [/] and
    whose notices are distinct and slash-free do not repeat. *)
Lemma regulation_paths_NoDup reg notices :
  startswith_sep reg = false ->
  Forall (fun n => slash_free n = true) notices ->
  List.NoDup notices ->
  List.NoDup (regulation_paths reg notices).
Proof.
  intros Hreg Hns Hnodup. rewrite regulation_paths_relative by done.
  rewrite List.Forall_forall in Hns.
  assert (HA : Forall (fun p => first_char p = Some "r"%char)
                 (List.map (regulation_path_relative reg) notices))
    by by apply Forall_map_all.
  assert (HB : Forall (fun p => first_char p = Some "n"%char)
                 (List.map notice_path notices))
    by by apply Forall_map_all.
  assert (HC : Forall (fun p => first_char p = Some "l"%char)
                 (List.flat_map
                    (fun layer => List.map (layer_path_relative layer reg) notices)
                    layers)).
  { apply Forall_flat_map. intros layer _. by apply Forall_map_all. }
  assert (HD : Forall (fun p => first_char p = Some "d"%char)
                 (List.flat_map
                    (fun n1 => List.map (diff_path_relative reg n1) notices)
                    notices)).
  { apply Forall_flat_map. intros n1 _. by apply Forall_map_all. }
  apply List.NoDup_app; [| apply List.NoDup_app; [| apply List.NoDup_app|] |].
  - apply NoDup_map_NoDup_ForallPairs; [|done].
    intros n m _ _. unfold regulation_path_relative. intros H.
    by do 3 apply append_inv_head in H.
  - apply NoDup_map_NoDup_ForallPairs; [|done].
    intros n m _ _. unfold notice_path. intros H.
    by apply append_inv_head in H.
  - apply NoDup_flat_map; [apply layers_NoDup| |].
    + intros layer Hl. apply NoDup_map_NoDup_ForallPairs; [|done].
      intros n m _ _. unfold layer_path_relative. intros H.
      apply append_inv_head, append_inv_head in H. injection H as H.
      by do 2 apply append_inv_head in H.
    + intros l1 l2 p Hl1 Hl2 (n & <- & Hn)%in_map_iff (m & H & Hm)%in_map_iff.
      unfold layer_path_relative in H. apply append_inv_head in H.
      apply slash_free_split in H as [H _]; [done|by apply layers_slash_free..].
  - apply NoDup_flat_map; [done| |].
    + intros n1 Hn1. apply NoDup_map_NoDup_ForallPairs; [|done].
      intros n m _ _. unfold diff_path_relative. intros H.
      by do 5 apply append_inv_head in H.
    + intros n1 m1 p Hn1 Hm1 (n2 & <- & Hn2)%in_map_iff (m2 & H & Hm2)%in_map_iff.
      unfold diff_path_relative in H. do 3 apply append_inv_head in H.
      apply diff_tail_inj in H as [H _]; auto.
  - by apply (first_char_differs "l" "d").
  - intros p Hp [Hp'|Hp']%in_app_iff.
    + by apply (first_char_differs "n" "l" _ _ ltac:(done) HB HC p).
    + by apply (first_char_differs "n" "d" _ _ ltac:(done) HB HD p).
  - intros p Hp [Hp'|[Hp'|Hp']%in_app_iff]%in_app_iff.
    + by apply (first_char_differs "r" "n" _ _ ltac:(done) HA HB p).
    + by apply (first_char_differs "r" "l" _ _ ltac:(done) HA HC p).
    + by apply (first_char_differs "r" "d" _ _ ltac:(done) HA HD p).
Qed.

(** ** [os.path.split] and the file system *)

Lemma length_append s t :
  String.length (s ++ t) = (String.length s + String.length t)%nat.
Proof.
  induction s as [|c s IH]; [reflexivity|].
  rewrite append_cons. simpl. by rewrite IH.
Qed.

Lemma rsplit_sep_length p :
  (String.length (fst (rsplit_sep p)) + String.length (snd (rsplit_sep p))
   = String.length p)%nat.
Proof.
  induction p as [|c p IH]; [reflexivity|].
  simpl. destruct (rsplit_sep p) as [head tail]. simpl in IH.
  destruct (is_sep c); [simpl; lia|].
  destruct head; simpl in *; lia.
Qed.

Lemma rstrip_sep_length s : (String.length (rstrip_sep s) <= String.length s)%nat.
Proof.
  induction s as [|c s IH]; [reflexivity|].
  simpl. destruct (rstrip_sep s).
  - destruct (is_sep c); simpl; lia.
  - simpl in *. lia.
Qed.

Lemma os_path_split_length p :
  (String.length (fst (os_path_split p)) + String.length (snd (os_path_split p))
   <= String.length p)%nat.
Proof.
  unfold os_path_split. pose proof (rsplit_sep_length p) as H.
  destruct (rsplit_sep p) as [head tail]. simpl in H.
  destruct (negb (bool_decide (head = "")) && negb (all_sep head)); simpl; [|lia].
  pose proof (rstrip_sep_length head). lia.
Qed.

(** The directory part of a name with a last component is shorter. *)
Lemma os_path_split_shorter p head tail :
  os_path_split p = (head, tail) -> tail <> "" ->
  (String.length head < String.length p)%nat.
Proof.
  intros Hsplit Htail. pose proof (os_path_split_length p) as H.
  rewrite Hsplit in H. simpl in H. destruct tail; [done|]. simpl in H. lia.
Qed.

Lemma stat_lookup f p :
  p <> "" -> all_sep p = false -> stat f p = f !! p.
Proof.
  intros H1 H2. unfold stat. by rewrite bool_decide_eq_false_2, H2.
Qed.

Lemma stat_None_lookup f p : p <> "" -> stat f p = None -> f !! p = None.
Proof.
  intros Hp. unfold stat. rewrite bool_decide_eq_false_2 by done.
  by destruct (all_sep p).
Qed.

Lemma stat_insert_eq f p n :
  p <> "" -> all_sep p = false -> stat (<[p := n]> f) p = Some n.
Proof. intros H1 H2. rewrite stat_lookup by done. apply lookup_insert_eq. Qed.

Lemma stat_insert_ne f p q n : p <> q -> stat (<[p := n]> f) q = stat f q.
Proof.
  intros Hne. unfold stat. destruct (bool_decide (q = "")); [done|].
  destruct (all_sep q); [done|]. by apply lookup_insert_ne.
Qed.

(** A directory stays one when a directory is made or a file that is
    not that directory is written. *)
Lemma stat_insert_Dir f p d : stat f d = Some Dir -> stat (<[p := Dir]> f) d = Some Dir.
Proof.
  intros Hd. destruct (decide (p = d)) as [->|Hne]; [|by rewrite stat_insert_ne].
  unfold stat in *. destruct (bool_decide (d = "")); [done|].
  destruct (all_sep d); [done|]. apply lookup_insert_eq.
Qed.

Lemma parent_error_insert_Dir f p k :
  parent_error f k = None -> parent_error (<[p := Dir]> f) k = None.
Proof.
  unfold parent_error. destruct (bool_decide (os_path_dirname k = "")); [done|].
  destruct (stat f (os_path_dirname k)) as [[]|] eqn:Hd; try done.
  by rewrite (stat_insert_Dir _ _ _ Hd).
Qed.

Lemma parent_error_insert_File f p c k :
  stat f p <> Some Dir ->
  parent_error f k = None -> parent_error (<[p := File c]> f) k = None.
Proof.
  intros Hp. unfold parent_error.
  destruct (bool_decide (os_path_dirname k = "")); [done|].
  destruct (stat f (os_path_dirname k)) as [[]|] eqn:Hd; try done.
  intros _. rewrite stat_insert_ne; [by rewrite Hd|]. congruence.
Qed.

Lemma well_formed_insert_Dir f p :
  well_formed f -> parent_error f p = None -> well_formed (<[p := Dir]> f).
Proof.
  intros Hwf Hp k n. destruct (decide (p = k)) as [->|Hne].
  - intros _. by apply parent_error_insert_Dir.
  - rewrite lookup_insert_ne by done. intros Hk.
    apply parent_error_insert_Dir. by eapply Hwf.
Qed.

Lemma well_formed_insert_File f p c :
  well_formed f -> parent_error f p = None -> stat f p <> Some Dir ->
  well_formed (<[p := File c]> f).
Proof.
  intros Hwf Hp Hnd k n. destruct (decide (p = k)) as [->|Hne].
  - intros _. by apply parent_error_insert_File.
  - rewrite lookup_insert_ne by done. intros Hk.
    apply parent_error_insert_File; [done|]. by eapply Hwf.
Qed.




(** The file system is all that [os.mkdir], [os.makedirs] and [open]
    change, however they end. *)
Lemma os_mkdir_only_fs name st :
  exists f', state_of (os_mkdir name st) = set_fs f' st.
Proof.
  unfold os_mkdir. exists (match os_mkdir name st with
                           | Ok _ st' => fs st' | Raise _ _ => fs st end).
  unfold os_mkdir. destruct st as [f l rq out].
  destruct (bool_decide (name = "")); [done|]. simpl.
  destruct (parent_error f name); [done|]. by destruct (stat f name).
Qed.

Lemma makedirs_aux_only_fs fuel name st :
  exists f', state_of (makedirs_aux fuel name st) = set_fs f' st.
Proof.
  revert name st. induction fuel as [|fuel IH]; intros name st.
  { exists (fs st). by destruct st. }
  simpl. destruct (os_path_split name) as [head tail].
  destruct (if bool_decide (tail = "") then os_path_split head else (head, tail))
    as [head' tail'].
  destruct (negb (bool_decide (head' = "")) && negb (bool_decide (tail' = "")));
    [|apply os_mkdir_only_fs].
  unfold bind at 1. unfold os_path_exists.
  destruct (negb (bool_decide (is_Some (stat (fs st) head'))));
    [|apply os_mkdir_only_fs].
  unfold bind. destruct (IH head' st) as [f1 Hf1].
  assert (Hmk : forall st1, st1 = set_fs f1 st ->
            exists f', state_of (if String.eqb tail' "." then ret tt st1
                                 else os_mkdir name st1) = set_fs f' st).
  { intros st1 ->. destruct (String.eqb tail' ".").
    - by exists f1.
    - destruct (os_mkdir_only_fs name (set_fs f1 st)) as [f' ->]. by exists f'. }
  destruct (makedirs_aux fuel head' st) as [[] st1|e st1]; simpl in Hf1.
  - destruct (Hmk st1 Hf1) as [f' Hf']. exists f'.
    by destruct (String.eqb tail' ".").
  - destruct e as [| | | | |[]| | | | | |]; try by (exists f1).
    destruct (Hmk st1 Hf1) as [f' Hf']. exists f'.
    by destruct (String.eqb tail' ".").
Qed.

Lemma open_w_only_fs p st :
  exists f', state_of (open_w p st) = set_fs f' st.
Proof.
  unfold open_w. destruct st as [f l rq out].
  destruct (bool_decide (p = "")); [by exists f|]. simpl.
  destruct (parent_error f p); [by exists f|].
  destruct (endswith_sep p); [by exists f|].
  destruct (stat f p) as [[]|]; by eexists.
Qed.




Lemma open_w_run p st :
  p <> "" -> parent_error (fs st) p = None -> endswith_sep p = false ->
  stat (fs st) p <> Some Dir ->
  open_w p st = Ok tt (set_fs (<[p := File ""]> (fs st)) st).
Proof.
  intros H1 H2 H3 H4. unfold open_w.
  rewrite bool_decide_eq_false_2, H2, H3 by done.
  by destruct (stat (fs st) p) as [[]|].
Qed.

Lemma open_w_inv p st st' :
  open_w p st = Ok tt st' ->
  p <> "" /\ parent_error (fs st) p = None /\ endswith_sep p = false
  /\ stat (fs st) p <> Some Dir /\ st' = set_fs (<[p := File ""]> (fs st)) st.
Proof.
  unfold open_w. destruct (bool_decide (p = "")) eqn:Hp; [done|].
  apply bool_decide_eq_false in Hp.
  destruct (parent_error (fs st) p); [done|].
  destruct (endswith_sep p); [done|].
  destruct (stat (fs st) p) as [[]|]; [| done |]; by intros [= <-].
Qed.

Lemma os_makedirs_nil st : os_makedirs "" st = Raise (OSError ENOENT) st.
Proof. reflexivity. Qed.

(** The recursion of [os.makedirs] goes to a strictly shorter name. *)
Lemma makedirs_head_shorter name head tail head' tail' :
  os_path_split name = (head, tail) ->
  (if bool_decide (tail = "") then os_path_split head else (head, tail))
  = (head', tail') ->
  tail' <> "" ->
  (String.length head' < String.length name)%nat.
Proof.
  intros Hsplit Hagain Htail'. case_bool_decide as Htail.
  - pose proof (os_path_split_shorter _ _ _ Hagain Htail').
    pose proof (os_path_split_length name) as Hlen. rewrite Hsplit in Hlen.
    simpl in Hlen. lia.
  - injection Hagain as <- <-. by eapply os_path_split_shorter.
Qed.

(** [os.makedirs] does not depend on the bound of its recursion, once
    the bound exceeds the length of the name: the bound is never hit. *)
Lemma makedirs_aux_fuel fuel1 fuel2 name st :
  (String.length name < fuel1)%nat -> (String.length name < fuel2)%nat ->
  makedirs_aux fuel1 name st = makedirs_aux fuel2 name st.
Proof.
  revert fuel2 name st.
  induction fuel1 as [|fuel1 IH]; intros [|fuel2] name st H1 H2; try lia.
  simpl. destruct (os_path_split name) as [head tail] eqn:Hsplit.
  destruct (if bool_decide (tail = "") then os_path_split head else (head, tail))
    as [head' tail'] eqn:Hagain.
  destruct (bool_decide (head' = "")); [done|].
  destruct (decide (tail' = "")) as [Ht|Htail'].
  { rewrite !(bool_decide_eq_true_2 _ Ht). by rewrite andb_false_r. }
  rewrite !(bool_decide_eq_false_2 _ Htail'). cbn [negb andb].
  unfold bind, os_path_exists.
  destruct (negb (bool_decide (is_Some (stat (fs st) head')))); [|done].
  pose proof (makedirs_head_shorter _ _ _ _ _ Hsplit Hagain Htail').
  by rewrite (IH fuel2 head' st) by lia.
Qed.

Lemma os_makedirs_fuel fuel name st :
  (String.length name < fuel)%nat ->
  makedirs_aux fuel name st = os_makedirs name st.
Proof. intros H. apply makedirs_aux_fuel; [done|lia]. Qed.

(** Nor does [creatable]. *)
Lemma creatable_aux_fuel fuel1 fuel2 f name :
  (String.length name < fuel1)%nat -> (String.length name < fuel2)%nat ->
  creatable_aux fuel1 f name = creatable_aux fuel2 f name.
Proof.
  revert fuel2 name.
  induction fuel1 as [|fuel1 IH]; intros [|fuel2] name H1 H2; try lia.
  simpl. destruct (os_path_split name) as [head tail] eqn:Hsplit.
  destruct (decide (tail = "")) as [Ht|Htail].
  { by rewrite !(bool_decide_eq_true_2 _ Ht). }
  rewrite !(bool_decide_eq_false_2 _ Htail). cbn [negb andb].
  f_equal. f_equal.
  destruct (stat f head) as [[]|]; try done.
  pose proof (os_path_split_shorter _ _ _ Hsplit Htail).
  apply IH; lia.
Qed.

(** ** What the file operations change *)


Lemma all_sep_endswith p : all_sep p = true -> p = "" \/ endswith_sep p = true.
Proof.
  induction p as [|c p IH]; [by left|]. simpl all_sep.
  intros [Hc Hp]%andb_true_iff. right.
  destruct (IH Hp) as [->|Hend].
  - apply is_sep_true in Hc as ->. reflexivity.
  - rewrite endswith_sep_cons; [done|]. by intros ->.
Qed.

Lemma not_all_sep p : p <> "" -> endswith_sep p = false -> all_sep p = false.
Proof.
  intros Hp Hend. destruct (all_sep p) eqn:Hall; [|done].
  destruct (all_sep_endswith p Hall) as [?|H]; [done|]. by rewrite H in Hend.
Qed.

Lemma kept_refl f : kept f f.
Proof. intros k. destruct (f !! k) as [[c|]|]; eauto. Qed.

Lemma kept_trans f g h : kept f g -> kept g h -> kept f h.
Proof.
  intros Hfg Hgh k. specialize (Hfg k). specialize (Hgh k).
  destruct (f !! k) as [[c|]|]; [| |done].
  - destruct Hfg as [c' Hc']. by rewrite Hc' in Hgh.
  - by rewrite Hfg in Hgh.
Qed.

Lemma fs_step_kept f f' : fs_step f f' -> kept f f'.
Proof.
  intros [p Hp Hparent Hstat | p c Hp Hend Hparent Hstat] k.
  - destruct (decide (k = p)) as [->|Hk].
    + by rewrite (stat_None_lookup f p Hp Hstat).
    + rewrite lookup_insert_ne by done. apply kept_refl.
  - destruct (decide (k = p)) as [->|Hk].
    + rewrite lookup_insert_eq.
      rewrite stat_lookup in Hstat by auto using not_all_sep.
      destruct (f !! p) as [[c'|]|]; eauto. done.
    + rewrite lookup_insert_ne by done. apply kept_refl.
Qed.

Lemma fs_steps_kept f f' : rtc fs_step f f' -> kept f f'.
Proof.
  induction 1 as [f|f g h Hstep _ IH]; [apply kept_refl|].
  eapply kept_trans; [by apply fs_step_kept|done].
Qed.

Lemma fs_step_well_formed f f' : fs_step f f' -> well_formed f -> well_formed f'.
Proof.
  intros [p Hp Hparent Hstat | p c Hp Hend Hparent Hstat] Hwf.
  - by apply well_formed_insert_Dir.
  - by apply well_formed_insert_File.
Qed.

Lemma fs_steps_well_formed f f' :
  rtc fs_step f f' -> well_formed f -> well_formed f'.
Proof.
  induction 1 as [f|f g h Hstep _ IH]; [done|].
  intros Hwf. apply IH. by apply (fs_step_well_formed f).
Qed.

Lemma os_mkdir_steps name st :
  exists f', state_of (os_mkdir name st) = set_fs f' st /\ rtc fs_step (fs st) f'.
Proof.
  unfold os_mkdir.
  destruct (decide (name = "")) as [Hname|Hname].
  { rewrite bool_decide_eq_true_2 by done. exists (fs st). by destruct st. }
  rewrite bool_decide_eq_false_2 by done.
  destruct (parent_error (fs st) name) eqn:Hparent.
  { exists (fs st). by destruct st. }
  destruct (stat (fs st) name) eqn:Hstat.
  { exists (fs st). by destruct st. }
  eexists. split; [reflexivity|]. apply rtc_once. by constructor.
Qed.

Lemma makedirs_aux_steps fuel name st :
  exists f',
    state_of (makedirs_aux fuel name st) = set_fs f' st
    /\ rtc fs_step (fs st) f'.
Proof.
  revert name st. induction fuel as [|fuel IH]; intros name st.
  { exists (fs st). by destruct st. }
  simpl makedirs_aux.
  destruct (os_path_split name) as [head tail].
  destruct (if bool_decide (tail = "") then os_path_split head else (head, tail))
    as [head' tail'].
  destruct (negb (bool_decide (head' = "")) && negb (bool_decide (tail' = "")));
    [|apply os_mkdir_steps].
  unfold bind at 1. unfold os_path_exists.
  destruct (negb (bool_decide (is_Some (stat (fs st) head'))));
    [|apply os_mkdir_steps].
  unfold bind at 1.
  destruct (IH head' st) as (f1 & Hf1 & Hsteps1).
  assert (Hthen : forall st1 : state, st1 = set_fs f1 st ->
    exists f',
      state_of ((if String.eqb tail' "." then ret tt else os_mkdir name) st1)
      = set_fs f' st /\ rtc fs_step (fs st) f').
  { intros st1 ->. destruct (String.eqb tail' ".").
    - by exists f1.
    - destruct (os_mkdir_steps name (set_fs f1 st)) as (f2 & Hf2 & Hsteps2).
      exists f2. split; [by rewrite Hf2|]. by etrans. }
  destruct (makedirs_aux fuel head' st) as [[] st1|e st1]; simpl in Hf1.
  - by apply Hthen.
  - destruct e as [| | | | |[]| | | | | |]; try (by exists f1); by apply Hthen.
Qed.

Lemma open_w_steps p st :
  exists f', state_of (open_w p st) = set_fs f' st /\ rtc fs_step (fs st) f'.
Proof.
  destruct (open_w p st) as [[] st'|e st'] eqn:Hopen.
  - apply open_w_inv in Hopen as (Hp & Hparent & Hend & Hstat & ->).
    eexists. split; [reflexivity|]. apply rtc_once. by constructor.
  - exists (fs st). split; [|done]. revert Hopen. unfold open_w.
    repeat case_match; intros [= <-]; by destruct st.
Qed.

(** ** URLs made of byte strings *)

Lemma py_add_str a b :
  is_unicode a = false -> is_unicode b = false ->
  py_add a b = inr (py_str (chars a ++ chars b)).
Proof. intros Ha Hb. unfold py_add. by rewrite Ha, Hb. Qed.

(** One step through a chain of concatenations of byte strings. *)
Ltac str_step :=
  cbn [and_then chars is_unicode];
  match goal with
  | |- context [py_add (mkPy false ?a) (mkPy false ?b)] =>
      rewrite (py_add_str (mkPy false a) (mkPy false b) eq_refl eq_refl);
      unfold py_str
  | |- context [and_then (if ?c then _ else _) _] => destruct c
  | |- context [py_add _ (if ?c then _ else _)] => destruct c
  | |- exists _, (if ?c then _ else _) = _ => destruct c
  end.

Lemma urlsplit_tail_str sch url :
  is_unicode sch = false -> is_unicode url = false ->
  match urlsplit_tail sch url with
  | inl e => e = ValueError
  | inr r => str_split r = true
  end.
Proof.
  intros Hsch Hurl. unfold urlsplit_tail.
  destruct (splitnetloc (chars url)) as [[nl tl]|];
    (destruct (_ || _); [done|]);
    repeat (destruct (partition _ _) as [[? ?]|]);
    unfold str_split, slice_of; simpl; by rewrite ?Hsch, ?Hurl.
Qed.

Lemma urlsplit_str url sch :
  is_unicode url = false -> is_unicode sch = false ->
  match urlsplit url sch with
  | inl e => e = ValueError
  | inr r => str_split r = true
  end.
Proof.
  intros Hurl Hsch. unfold urlsplit.
  destruct (partition ":" (chars url)) as [[[|c pre] rest]|];
    try (by apply urlsplit_tail_str).
  destruct (String.eqb _ "http"); [by apply urlsplit_tail_str|].
  destruct (_ && _); by apply urlsplit_tail_str.
Qed.

Lemma splitparams_str url :
  is_unicode url = false ->
  is_unicode (fst (splitparams url)) = false
  /\ is_unicode (snd (splitparams url)) = false.
Proof.
  intros Hurl. unfold splitparams.
  destruct (rsplit_sep (chars url)) as [head tail].
  by destruct (partition ";" tail) as [[a b]|].
Qed.

Lemma urlparse_str url sch :
  is_unicode url = false -> is_unicode sch = false ->
  match urlparse url sch with
  | inl e => e = ValueError
  | inr r => str_parse r = true
  end.
Proof.
  intros Hurl Hsch. unfold urlparse.
  pose proof (urlsplit_str url sch Hurl Hsch) as Hsplit.
  destruct (urlsplit url sch) as [e|r]; [done|].
  unfold str_split in Hsplit.
  apply andb_true_iff in Hsplit as [[[[H1 H2]%andb_true_iff H3]%andb_true_iff
                                       H4]%andb_true_iff H5].
  apply negb_true_iff in H1, H2, H3, H4, H5.
  destruct (splitparams_str (s_path r) H3) as [Hp1 Hp2].
  destruct (_ && _).
  - destruct (splitparams (s_path r)) as [path prm]. simpl in Hp1, Hp2.
    unfold str_parse. simpl. by rewrite H1, H2, Hp1, Hp2, H4, H5.
  - unfold str_parse. simpl. by rewrite H1, H2, H3, H4, H5.
Qed.

Lemma urlunsplit_str r :
  str_split r = true -> exists s, urlunsplit r = inr (py_str s).
Proof.
  destruct r as [[u1 scheme] [u2 netloc] [u3 path] [u4 query] [u5 fragment]].
  unfold str_split. simpl.
  intros [[[[H1 H2]%andb_true_iff H3]%andb_true_iff H4]%andb_true_iff H5]%andb_true_iff.
  apply negb_true_iff in H1, H2, H3, H4, H5. subst.
  unfold urlunsplit, py_str.
  cbn [chars s_scheme s_netloc s_path s_query s_fragment].
  repeat str_step; by eexists.
Qed.

Lemma urlunparse_str r :
  str_parse r = true -> exists s, urlunparse r = inr (py_str s).
Proof.
  destruct r as [[u1 scheme] [u2 netloc] [u3 path] [u4 params] [u5 query]
                 [u6 fragment]].
  unfold str_parse. simpl.
  intros [[[[[H1 H2]%andb_true_iff H3]%andb_true_iff H4]%andb_true_iff
            H5]%andb_true_iff H6]%andb_true_iff.
  apply negb_true_iff in H1, H2, H3, H4, H5, H6. subst.
  unfold urlunparse.
  cbn [p_scheme p_netloc p_path p_params p_query p_fragment].
  destruct (negb (py_empty (mkPy false params))).
  - rewrite py_add_str by done. cbn [and_then]. rewrite py_add_str by done.
    cbn [and_then]. by apply urlunsplit_str.
  - cbn [and_then]. by apply urlunsplit_str.
Qed.

Lemma remove_dotdot_str segments segments' :
  Forall (fun s => is_unicode s = false) segments ->
  remove_dotdot segments = Some segments' ->
  Forall (fun s => is_unicode s = false) segments'.
Proof.
  revert segments'. induction segments as [|prev rest IH]; intros segments'; [done|].
  intros Hall. inversion Hall as [|? ? Hprev Hrest]; subst. simpl.
  destruct rest as [|cur [|next after]]; try done.
  destruct (_ && _).
  - intros [= <-]. by inversion Hrest.
  - destruct (remove_dotdot (cur :: next :: after)) as [rest'|] eqn:Hrec; [|done].
    intros [= <-]. constructor; [done|]. by apply IH.
Qed.

Lemma remove_dotdots_str fuel segments :
  Forall (fun s => is_unicode s = false) segments ->
  Forall (fun s => is_unicode s = false) (remove_dotdots fuel segments).
Proof.
  revert segments. induction fuel as [|fuel IH]; intros segments Hall; [done|].
  simpl. destruct (remove_dotdot segments) as [segments'|] eqn:Hrec; [|done].
  apply IH. by apply (remove_dotdot_str segments).
Qed.

Lemma Forall_removelast {A} (P : A -> Prop) (l : list A) :
  Forall P l -> Forall P (removelast l).
Proof.
  induction l as [|x l IH]; [done|]. intros Hall.
  inversion Hall; subst. simpl. destruct l; [constructor|].
  constructor; [done|]. by apply IH.
Qed.

Lemma join_segments_sep_str segments :
  Forall (fun s => is_unicode s = false) segments ->
  exists s, join_segments_sep segments = inr (py_str s).
Proof.
  intros Hall. unfold join_segments_sep.
  assert (Hnone : existsb is_unicode segments = false).
  { induction Hall as [|s l Hs _ IH]; [done|]. simpl. by rewrite Hs, IH. }
  rewrite Hnone. by eexists.
Qed.

Lemma join_segments_str bpath path :
  is_unicode bpath = false -> is_unicode path = false ->
  exists s, join_segments bpath path = inr (py_str s).
Proof.
  intros Hb Hp. unfold join_segments.
  apply join_segments_sep_str.
  assert (Hslices : forall (u : pystring) (l : list string),
            is_unicode u = false ->
            Forall (fun s => is_unicode s = false) (List.map (slice_of u) l)).
  { intros u l Hu. induction l; constructor; done. }
  assert (Hlast : forall l, Forall (fun s => is_unicode s = false) l ->
            Forall (fun s => is_unicode s = false) (set_last_empty l)).
  { intros l Hl. unfold set_last_empty. apply Forall_app. split.
    - by apply Forall_removelast.
    - by constructor. }
  assert (H0 : Forall (fun s => is_unicode s = false)
                 (removelast (List.map (slice_of bpath) (split_sep (chars bpath)))
                  ++ List.map (slice_of path) (split_sep (chars path)))).
  { apply Forall_app. split; [apply Forall_removelast|]; by apply Hslices. }
  set (segments0 := (removelast _ ++ _)%list) in *.
  assert (H1 : Forall (fun s => is_unicode s = false)
                 (if is_dot (List.last segments0 (py_str ""))
                  then set_last_empty segments0 else segments0)).
  { destruct (is_dot _); auto. }
  set (segments1 := if is_dot _ then _ else _) in *.
  assert (H2 : Forall (fun s => is_unicode s = false)
                 (List.filter (fun s => negb (is_dot s)) segments1)).
  { apply List.Forall_forall. intros s [Hs _]%List.filter_In.
    rewrite List.Forall_forall in H1. by apply H1. }
  set (segments2 := List.filter _ segments1) in *.
  pose proof (remove_dotdots_str (List.length segments2) segments2 H2) as H3.
  set (segments3 := remove_dotdots _ segments2) in *.
  destruct (bool_decide _); [by apply Hlast|].
  destruct (_ && _); [|done].
  apply Forall_app. split; [|by constructor].
  by apply Forall_removelast, Forall_removelast.
Qed.

(** [urljoin] of two byte strings raises nothing but [ValueError]. *)
Lemma urljoin_str_exn base url e : urljoin_str base url = inl e -> e = ValueError.
Proof.
  unfold urljoin_str, urljoin.
  destruct (py_empty (py_str base)); [done|].
  destruct (py_empty (py_str url)); [done|].
  pose proof (urlparse_str (py_str base) (py_str "") eq_refl eq_refl) as Hb.
  destruct (urlparse (py_str base) (py_str "")) as [e'|b]; [by intros [= <-]|].
  assert (Hscheme : is_unicode (p_scheme b) = false).
  { unfold str_parse in Hb. destruct (is_unicode (p_scheme b)); done. }
  pose proof (urlparse_str (py_str url) (p_scheme b) eq_refl Hscheme) as Hu.
  destruct (urlparse (py_str url) (p_scheme b)) as [e'|u]; [by intros [= <-]|].
  assert (Hfields : forall r, str_parse r = true ->
            and_then (urlunparse r) (fun joined => inr (chars joined)) = inl e ->
            e = ValueError).
  { intros r Hr. by destruct (urlunparse_str r Hr) as [s ->]. }
  unfold str_parse in Hb, Hu.
  apply andb_true_iff in Hb as [[[[[Hb1 Hb2]%andb_true_iff Hb3]%andb_true_iff
                                   Hb4]%andb_true_iff Hb5]%andb_true_iff Hb6].
  apply andb_true_iff in Hu as [[[[[Hu1 Hu2]%andb_true_iff Hu3]%andb_true_iff
                                   Hu4]%andb_true_iff Hu5]%andb_true_iff Hu6].
  destruct (_ || _); [done|].
  destruct (_ && _).
  { apply Hfields. unfold str_parse. by rewrite Hu1, Hu2, Hu3, Hu4, Hu5, Hu6. }
  cbv zeta.
  set (nl := if in_list (chars (p_scheme u)) uses_netloc
             then p_netloc b else p_netloc u).
  assert (Hnl : negb (is_unicode nl) = true).
  { unfold nl. by destruct (in_list _ uses_netloc). }
  clearbody nl.
  destruct (startswith_sep _).
  { apply Hfields. unfold str_parse.
    cbn [p_scheme p_netloc p_path p_params p_query p_fragment].
    by rewrite Hu1, Hnl, Hu3, Hu4, Hu5, Hu6. }
  destruct (_ && _).
  { apply Hfields. unfold str_parse.
    cbn [p_scheme p_netloc p_path p_params p_query p_fragment].
    rewrite Hu1, Hnl, Hb3, Hb4, Hu6.
    by destruct (py_empty (p_query u)); rewrite ?Hb5, ?Hu5. }
  apply negb_true_iff in Hb3, Hu3.
  destruct (join_segments_str (p_path b) (p_path u) Hb3 Hu3) as [s ->].
  cbn [and_then]. apply Hfields. unfold str_parse.
  cbn [p_scheme p_netloc p_path p_params p_query p_fragment is_unicode py_str negb andb].
  by rewrite Hu1, Hnl, Hu4, Hu5, Hu6.
Qed.

(** ** Strings of the two types *)

Lemma is_ascii_append s t : is_ascii (s ++ t) = is_ascii s && is_ascii t.
Proof.
  induction s as [|c s IH]; [by rewrite append_nil_l|].
  rewrite append_cons. unfold is_ascii in *. simpl. rewrite IH.
  by rewrite andb_assoc.
Qed.

Lemma is_ascii_join_step path b :
  is_ascii path = true -> is_ascii b = true -> is_ascii (join_step path b) = true.
Proof.
  intros Hpath Hb. unfold join_step.
  destruct (startswith_sep b); [done|].
  destruct (_ && _).
  - rewrite is_ascii_append, Hpath.
    change (is_ascii (String sep b)) with (is_ascii_char sep && is_ascii b).
    by rewrite Hb.
  - by rewrite is_ascii_append, Hpath, Hb.
Qed.

Lemma is_ascii_os_path_join a p :
  is_ascii a = true -> Forall (fun b => is_ascii b = true) p ->
  is_ascii (os_path_join a p) = true.
Proof.
  unfold os_path_join. revert a. induction p as [|b p IH]; intros a Ha Hp; [done|].
  inversion Hp; subst. simpl. apply IH; [|done]. by apply is_ascii_join_step.
Qed.

Lemma join_step_unicode_ascii path b :
  is_ascii path = true -> join_step_unicode path b = inr (join_step path b).
Proof.
  intros Hpath. unfold join_step_unicode, join_step. rewrite Hpath.
  by destruct (startswith_sep b).
Qed.

(** When the join of a [str] and a [unicode] does not raise, it is the
    join of their characters. *)
Lemma join_step_unicode_inr path b file_path :
  join_step_unicode path b = inr file_path -> file_path = join_step path b.
Proof.
  unfold join_step_unicode, join_step.
  destruct (startswith_sep b); [by intros [= <-]|].
  destruct (is_ascii path); [by intros [= <-]|done].
Qed.


(** ** The comprehensions of path discovery *)

Lemma map_exn_inr {A B} (f : A -> exn + B) (g : A -> B) (l : list A) :
  (forall x, In x l -> f x = inr (g x)) -> map_exn f l = inr (List.map g l).
Proof.
  induction l as [|x l IH]; intros Hf; [done|].
  simpl. rewrite Hf by (by left). simpl.
  rewrite IH by (intros; apply Hf; by right). done.
Qed.

Lemma extend_exn_inr {A B} (f : A -> exn + list B) (g : A -> list B) (l : list A) :
  (forall x, In x l -> f x = inr (g x)) -> extend_exn f l = inr (List.flat_map g l).
Proof.
  intros Hf. unfold extend_exn. rewrite (map_exn_inr f g) by done. simpl.
  by rewrite flat_map_concat_map.
Qed.

Lemma map_exn_map {A B C} (f : B -> exn + C) (h : A -> B) (l : list A) :
  map_exn f (List.map h l) = map_exn (fun x => f (h x)) l.
Proof. induction l as [|x l IH]; [done|]. simpl. by rewrite IH. Qed.

Lemma join_value_ascii path n :
  is_ascii path = true -> join_value path (JStr n) = inr (join_step path n).
Proof. intros Hpath. unfold join_value. simpl. by apply join_step_unicode_ascii. Qed.

Lemma join_diff_ascii reg n1 n2 :
  is_ascii reg = true ->
  join_diff reg (JStr n1) (JStr n2) = inr (os_path_join "diff" [reg; n1; n2]).
Proof.
  intros Hreg. unfold join_diff. rewrite join_value_ascii; [done|].
  by apply is_ascii_os_path_join; [|constructor].
Qed.

Lemma layers_ascii : Forall (fun layer => is_ascii layer = true) layers.
Proof. by repeat constructor. Qed.

(** The four comprehensions, for notices that are strings and an ASCII
    id; without notices the id does not matter. *)
Lemma comprehensions_ascii reg notices :
  is_ascii reg = true \/ notices = [] ->
  map_exn (join_value (os_path_join "regulation" [reg])) (List.map JStr notices)
  = inr (List.map (fun n => os_path_join (os_path_join "regulation" [reg]) [n])
                  notices)
  /\ map_exn (join_value "notice") (List.map JStr notices)
     = inr (List.map (fun n => os_path_join "notice" [n]) notices)
  /\ extend_exn
       (fun layer =>
          map_exn (join_value (os_path_join "layer" [layer; reg]))
                  (List.map JStr notices))
       layers
     = inr (List.flat_map
              (fun layer =>
                 List.map (fun n => os_path_join "layer" [layer; reg; n]) notices)
              layers)
  /\ extend_exn
       (fun notice => map_exn (join_diff reg notice) (List.map JStr notices))
       (List.map JStr notices)
     = inr (List.flat_map
              (fun notice =>
                 List.map (fun n => os_path_join "diff" [reg; notice; n]) notices)
              notices).
Proof.
  intros [Hreg | ->]; [|by split_and!]. split_and!.
  - rewrite map_exn_map. apply map_exn_inr. intros n _.
    apply join_value_ascii. by apply is_ascii_os_path_join; [|constructor].
  - rewrite map_exn_map. apply map_exn_inr. intros n _.
    by apply join_value_ascii.
  - apply extend_exn_inr. intros layer Hlayer.
    rewrite map_exn_map. apply map_exn_inr. intros n _.
    rewrite join_value_ascii; [done|].
    apply is_ascii_os_path_join; [done|].
    constructor; [|by constructor].
    pose proof layers_ascii as Hl. rewrite List.Forall_forall in Hl. by apply Hl.
  - unfold extend_exn. rewrite map_exn_map.
    rewrite (map_exn_inr _
               (fun notice =>
                  List.map (fun n => os_path_join "diff" [reg; notice; n]) notices)).
    + simpl. by rewrite flat_map_concat_map.
    + intros n1 _. rewrite map_exn_map. apply map_exn_inr. intros n2 _.
      by apply join_diff_ascii.
Qed.

(** What a comprehension returns when it does not raise. *)
Lemma map_exn_inv {A B} (f : A -> exn + B) (g : A -> B) (l : list A) r :
  (forall x y, f x = inr y -> y = g x) ->
  map_exn f l = inr r -> r = List.map g l.
Proof.
  intros Hf. revert r. induction l as [|x l IH]; intros r; [by intros [= <-]|].
  simpl. destruct (f x) as [e|y] eqn:Hx; [done|]. simpl.
  destruct (map_exn f l) as [e|ys]; [done|]. simpl. intros [= <-].
  by rewrite (Hf x y Hx), (IH ys).
Qed.

Lemma extend_exn_inv {A B} (f : A -> exn + list B) (g : A -> list B) (l : list A) r :
  (forall x y, f x = inr y -> y = g x) ->
  extend_exn f l = inr r -> r = List.flat_map g l.
Proof.
  intros Hf. unfold extend_exn.
  destruct (map_exn f l) as [e|found] eqn:Hfound; [done|]. simpl. intros [= <-].
  by rewrite (map_exn_inv f g l found Hf Hfound), flat_map_concat_map.
Qed.

Lemma join_value_inv path n p :
  join_value path (JStr n) = inr p -> p = os_path_join path [n].
Proof. unfold join_value. simpl. apply join_step_unicode_inr. Qed.

Lemma join_diff_inv reg n1 n2 p :
  join_diff reg (JStr n1) (JStr n2) = inr p ->
  p = os_path_join "diff" [reg; n1; n2].
Proof.
  unfold join_diff.
  destruct (join_value _ (JStr n1)) as [e|path] eqn:Hpath; [done|].
  apply join_value_inv in Hpath as ->. simpl. by intros [= <-].
Qed.

Lemma comprehensions_inv reg notices l1 l2 l3 l4 :
  map_exn (join_value (os_path_join "regulation" [reg])) (List.map JStr notices)
  = inr l1 ->
  map_exn (join_value "notice") (List.map JStr notices) = inr l2 ->
  extend_exn
    (fun layer =>
       map_exn (join_value (os_path_join "layer" [layer; reg]))
               (List.map JStr notices))
    layers = inr l3 ->
  extend_exn
    (fun notice => map_exn (join_diff reg notice) (List.map JStr notices))
    (List.map JStr notices) = inr l4 ->
  (l1 ++ l2 ++ l3 ++ l4)%list = regulation_paths reg notices.
Proof.
  intros H1 H2 H3 H4. unfold regulation_paths.
  rewrite map_exn_map in H1, H2.
  apply (map_exn_inv _ (fun n => os_path_join (os_path_join "regulation" [reg]) [n]))
    in H1; [|intros n p; apply join_value_inv].
  apply (map_exn_inv _ (fun n => os_path_join "notice" [n]))
    in H2; [|intros n p; apply join_value_inv].
  apply (extend_exn_inv _
           (fun layer =>
              List.map (fun n => os_path_join "layer" [layer; reg; n]) notices))
    in H3; cycle 1.
  { intros layer l. rewrite map_exn_map. apply map_exn_inv.
    intros n p. apply join_value_inv. }
  unfold extend_exn in H4. rewrite map_exn_map in H4.
  fold (extend_exn (fun n1 => map_exn (join_diff reg (JStr n1)) (List.map JStr notices))
          notices) in H4.
  apply (extend_exn_inv _
           (fun notice =>
              List.map (fun n => os_path_join "diff" [reg; notice; n]) notices))
    in H4; cycle 1.
  { intros n1 l. rewrite map_exn_map. apply map_exn_inv.
    intros n2 p. apply join_diff_inv. }
  by subst.
Qed.





(** ** The document of a regulation *)

Lemma member_find key members :
  List.find (fun kv => String.eqb (fst kv) key) members
  = match member key members with
    | Some x => Some (List.hd "" (List.map fst
                        (List.filter (fun kv => String.eqb (fst kv) key) members)), x)
    | None => None
    end.
Proof.
  induction members as [|[k x] members IH]; [done|].
  simpl. destruct (String.eqb k key) eqn:Hk; [done|]. apply IH.
Qed.

Lemma getitem_member key members :
  getitem (JObj members) key
  = match member key members with
    | Some x => inr x
    | None => inl KeyError
    end.
Proof.
  unfold getitem. rewrite member_find. by destruct (member key members).
Qed.

Lemma getitems_versions ds notices :
  versions_of ds = Some notices ->
  getitems "version" ds = inr (List.map JStr notices).
Proof.
  revert notices. induction ds as [|d ds IH]; intros notices; [by intros [= <-]|].
  simpl. destruct (version_of d) as [n|] eqn:Hd; [|done].
  destruct (versions_of ds) as [ns|]; [|done]. intros [= <-].
  unfold version_of in Hd. destruct d as [| | | | | |members]; try done.
  rewrite getitem_member.
  destruct (member "version" members) as [[| | | |s| |]|]; try done.
  injection Hd as ->. by rewrite (IH ns).
Qed.

(** The expected document gives its notices. *)
Lemma notices_of_expected body notices :
  expected_notices body = Some notices ->
  notices_of body = inr (List.map JStr notices).
Proof.
  unfold expected_notices, notices_of.
  destruct body as [| | | | | |members]; try done.
  rewrite getitem_member.
  destruct (member "versions" members) as [[| | | | |ds|]|]; try done.
  simpl. apply getitems_versions.
Qed.





Lemma notices_of_empty_versions body :
  empty_versions body = true -> notices_of body = inr [].
Proof.
  unfold empty_versions, notices_of.
  destruct body as [| | | | | |members]; try done.
  rewrite getitem_member.
  destruct (member "versions" members) as [[| | | |[|]| |[|]]|]; done.
Qed.

(** ** The script *)

Section Properties.

Variable soup_select : string -> string -> list string.
Variable http : network.

Lemma logger_run lv msg st : logger lv msg st = Ok tt (logged [(lv, msg)] st).
Proof. reflexivity. Qed.

Lemma requests_get_run url st :
  requests_get http url st =
  match http (requests st) url with
  | inl e => Raise e (requested url st)
  | inr r => Ok r (requested url st)
  end.
Proof. reflexivity. Qed.

Lemma handle_error_run r st :
  handle_error soup_select r st
  = Ok tt (logged [(ERROR, error_message soup_select r)] st).
Proof.
  unfold handle_error, try_except, bind, select_first, error_message, extraction.
  destruct (soup_select (text r) "#summary h1") as [|title ?]; [reflexivity|].
  destruct (soup_select (text r) "#summary .exception_value") as [|value ?];
    [reflexivity|].
  unfold ret, encode_ascii.
  destruct (is_ascii title); [|reflexivity].
  destruct (is_ascii value); reflexivity.
Qed.

Lemma received_spec url r st :
  (if negb (status_code r =? 200)%Z then handle_error soup_select r else ret tt)
    (requested url st)
  = Ok tt (received soup_select url r st).
Proof.
  unfold received. destruct (status_code r =? 200)%Z; simpl; [reflexivity|].
  apply handle_error_run.
Qed.


(** *** Path discovery *)

(** When the URL cannot be built, nothing happens. *)
Lemma determine_regulation_paths_no_url api reg e st :
  urljoin_str api ("regulation/" ++ reg) = inl e ->
  determine_regulation_paths soup_select http api reg st = Raise e st.
Proof. intros Hurl. unfold determine_regulation_paths. by rewrite Hurl. Qed.

(** When the request raises, the exception goes through. *)
Lemma determine_regulation_paths_no_answer api reg url e st :
  urljoin_str api ("regulation/" ++ reg) = inr url ->
  http (requests st) url = inl e ->
  determine_regulation_paths soup_select http api reg st
  = Raise e (requested url st).
Proof.
  intros Hurl Hget. unfold determine_regulation_paths. rewrite Hurl.
  unfold bind at 1. cbn [lift]. unfold ret at 1.
  unfold bind at 1. by rewrite requests_get_run, Hget.
Qed.


(** When the first comprehension raises, the exception goes through,
    after the first line of the log. *)
Lemma determine_regulation_paths_first_join api reg url r vs e st :
  urljoin_str api ("regulation/" ++ reg) = inr url ->
  http (requests st) url = inr r ->
  body_notices r = inr vs ->
  map_exn (join_value (os_path_join "regulation" [reg])) vs = inl e ->
  determine_regulation_paths soup_select http api reg st
  = Raise e (logged [(INFO, "generating paths for regulation " ++ reg ++ "...")]
               (received soup_select url r st)).
Proof.
  intros Hurl Hget Hbody Hraise.
  unfold determine_regulation_paths, logger_info.
  rewrite Hurl. unfold bind at 1. cbn [lift]. unfold ret at 1.
  unfold bind at 1. rewrite requests_get_run, Hget.
  unfold bind at 1. rewrite received_spec.
  unfold bind at 1. unfold response_json. unfold body_notices in Hbody.
  destruct (json_body r) as [body|]; [|done].
  unfold ret at 1. unfold bind at 1. rewrite Hbody. cbn [lift]. unfold ret at 1.
  unfold bind at 1. rewrite logger_run.
  cbv zeta. unfold bind at 1. by rewrite Hraise.
Qed.


(** With an ASCII id and notices that are strings, the paths are
    returned. *)
Lemma determine_regulation_paths_run api reg url r notices st :
  urljoin_str api ("regulation/" ++ reg) = inr url ->
  http (requests st) url = inr r ->
  body_notices r = inr (List.map JStr notices) ->
  is_ascii reg = true \/ notices = [] ->
  determine_regulation_paths soup_select http api reg st
  = Ok (regulation_paths reg notices)
       (logged (generating_log reg) (received soup_select url r st)).
Proof.
  intros Hurl Hget Hbody Hreg.
  destruct (comprehensions_ascii reg notices Hreg) as (H1 & H2 & H3 & H4).
  unfold determine_regulation_paths, logger_info.
  rewrite Hurl. unfold bind at 1. cbn [lift]. unfold ret at 1.
  unfold bind at 1. rewrite requests_get_run, Hget.
  unfold bind at 1. rewrite received_spec.
  unfold bind at 1. unfold response_json. unfold body_notices in Hbody.
  destruct (json_body r) as [body|]; [|done].
  unfold ret at 1. unfold bind at 1. rewrite Hbody. cbn [lift]. unfold ret at 1.
  unfold bind at 1. rewrite logger_run. cbv zeta.
  unfold bind at 1. rewrite H1. cbn [lift]. unfold ret at 1.
  unfold bind at 1. rewrite logger_run.
  unfold bind at 1. rewrite H2. cbn [lift]. unfold ret at 1.
  unfold bind at 1. rewrite logger_run.
  unfold bind at 1. rewrite H3. cbn [lift]. unfold ret at 1.
  unfold bind at 1. rewrite logger_run.
  unfold bind at 1. rewrite H4. cbn [lift]. unfold ret.
  f_equal. unfold logged, generating_log; simpl.
  by rewrite <- !app_assoc.
Qed.

(** The expected document, as [body_notices] reads it. *)
Lemma body_notices_expected r body notices :
  json_body r = Some body ->
  expected_notices body = Some notices ->
  body_notices r = inr (List.map JStr notices).
Proof.
  intros Hbody Hns. unfold body_notices. rewrite Hbody.
  by apply notices_of_expected.
Qed.

(** When path discovery returns, it returns the paths of the notices. *)
Lemma determine_regulation_paths_returns api reg url r notices found st st' :
  urljoin_str api ("regulation/" ++ reg) = inr url ->
  http (requests st) url = inr r ->
  body_notices r = inr (List.map JStr notices) ->
  determine_regulation_paths soup_select http api reg st = Ok found st' ->
  found = regulation_paths reg notices.
Proof.
  intros Hurl Hget Hbody.
  unfold determine_regulation_paths, logger_info.
  rewrite Hurl. unfold bind at 1. cbn [lift]. unfold ret at 1.
  unfold bind at 1. rewrite requests_get_run, Hget.
  unfold bind at 1. rewrite received_spec.
  unfold bind at 1. unfold response_json. unfold body_notices in Hbody.
  destruct (json_body r) as [body|]; [|done].
  unfold ret at 1. unfold bind at 1. rewrite Hbody. cbn [lift]. unfold ret at 1.
  unfold bind at 1. rewrite logger_run. cbv zeta.
  unfold bind at 1.
  destruct (map_exn (join_value (os_path_join "regulation" [reg])) _)
    as [e|l1] eqn:H1; [done|].
  cbn [lift]. unfold ret at 1.
  unfold bind at 1. rewrite logger_run.
  unfold bind at 1.
  destruct (map_exn (join_value "notice") _) as [e|l2] eqn:H2; [done|].
  cbn [lift]. unfold ret at 1.
  unfold bind at 1. rewrite logger_run.
  unfold bind at 1.
  destruct (extend_exn _ layers) as [e|l3] eqn:H3; [done|].
  cbn [lift]. unfold ret at 1.
  unfold bind at 1. rewrite logger_run.
  unfold bind at 1.
  destruct (extend_exn _ (List.map JStr notices)) as [e|l4] eqn:H4; [done|].
  cbn [lift]. unfold ret. intros [= <- _].
  by apply comprehensions_inv.
Qed.

(** Whatever becomes of it, path discovery changes nothing but the log
    and the list of requests, to which it adds at most its own. *)
Lemma determine_regulation_paths_state api reg st :
  exists lines,
    state_of (determine_regulation_paths soup_select http api reg st)
    = mkState (fs st) (log st ++ lines)
        (requests st ++ match urljoin_str api ("regulation/" ++ reg) with
                        | inr url => [url]
                        | inl _ => []
                        end)
        (stdout st).
Proof.
  destruct (urljoin_str api ("regulation/" ++ reg)) as [e|url] eqn:Hurl.
  { rewrite (determine_regulation_paths_no_url _ _ _ _ Hurl).
    exists []. simpl. rewrite !app_nil_r. by destruct st. }
  destruct (http (requests st) url) as [e|r] eqn:Hget.
  { rewrite (determine_regulation_paths_no_answer _ _ _ _ _ Hurl Hget).
    exists []. simpl. by rewrite !app_nil_r. }
  assert (Hrec : exists lines,
    received soup_select url r st
    = mkState (fs st) (log st ++ lines) (requests st ++ [url]) (stdout st)).
  { unfold received. destruct (status_code r =? 200)%Z.
    - exists []. unfold requested. by rewrite app_nil_r.
    - by eexists. }
  destruct Hrec as [lines0 Hrec].
  unfold determine_regulation_paths, logger_info.
  rewrite Hurl. unfold bind at 1. cbn [lift]. unfold ret at 1.
  unfold bind at 1. rewrite requests_get_run, Hget.
  unfold bind at 1. rewrite received_spec, Hrec.
  unfold bind at 1. unfold response_json.
  destruct (json_body r) as [body|]; [|by eexists].
  unfold ret at 1. unfold bind at 1.
  destruct (notices_of body) as [e|vs]; [by eexists|].
  cbn [lift]. unfold ret at 1.
  unfold bind at 1. rewrite logger_run. cbv zeta.
  unfold bind at 1. destruct (map_exn _ vs) as [e|l1];
    [eexists; unfold logged; simpl; by rewrite <- ?app_assoc|].
  cbn [lift]. unfold ret at 1.
  unfold bind at 1. rewrite logger_run.
  unfold bind at 1. destruct (map_exn _ vs) as [e|l2];
    [eexists; unfold logged; simpl; by rewrite <- ?app_assoc|].
  cbn [lift]. unfold ret at 1.
  unfold bind at 1. rewrite logger_run.
  unfold bind at 1. destruct (extend_exn _ layers) as [e|l3];
    [eexists; unfold logged; simpl; by rewrite <- ?app_assoc|].
  cbn [lift]. unfold ret at 1.
  unfold bind at 1. rewrite logger_run.
  unfold bind at 1. destruct (extend_exn _ vs) as [e|l4];
    eexists; unfold logged; simpl; by rewrite <- ?app_assoc.
Qed.

(** *** Fetching *)

Lemma get_from_server_no_url api stub path e st :
  urljoin_unicode api path = inl e ->
  get_from_server soup_select http api stub path st = Raise e st.
Proof. intros Hurl. unfold get_from_server. by rewrite Hurl. Qed.

Lemma get_from_server_no_answer api stub path url e st :
  urljoin_unicode api path = inr url ->
  http (requests st) url = inl e ->
  get_from_server soup_select http api stub path st = Raise e (requested url st).
Proof.
  intros Hurl Hget. unfold get_from_server. rewrite Hurl.
  unfold bind at 1. cbn [lift]. unfold ret at 1.
  unfold bind at 1. by rewrite requests_get_run, Hget.
Qed.

(** A fetch that is answered with a status other than 200 reports the
    error and does nothing else. *)
Lemma get_from_server_failed api stub path url r st :
  urljoin_unicode api path = inr url ->
  http (requests st) url = inr r ->
  status_code r <> 200%Z ->
  get_from_server soup_select http api stub path st
  = Ok tt (logged [(ERROR, error_message soup_select r)] (requested url st)).
Proof.
  intros Hurl Hget Hstatus. unfold get_from_server.
  rewrite Hurl. unfold bind at 1. cbn [lift]. unfold ret at 1.
  unfold bind at 1. rewrite requests_get_run, Hget.
  apply Z.eqb_neq in Hstatus. rewrite Hstatus. simpl negb.
  apply handle_error_run.
Qed.

(** What [get_from_server] does once the server has answered with 200. *)
Lemma get_from_server_answered api stub path url r st :
  urljoin_unicode api path = inr url ->
  http (requests st) url = inr r ->
  status_code r = 200%Z ->
  get_from_server soup_select http api stub path st =
  match join_step_unicode stub path with
  | inl e => Raise e (requested url st)
  | inr file_path =>
      if is_ascii file_path then
        let directory := os_path_dirname file_path in
        let st1 := logged [(INFO, "getting " ++ file_path)] (requested url st) in
        match (if bool_decide (is_Some (stat (fs st1) directory)) then Ok tt st1
               else os_makedirs directory st1) with
        | Raise e st2 => Raise e st2
        | Ok _ st2 =>
            match open_w file_path st2 with
            | Raise e st3 => Raise e st3
            | Ok _ st3 =>
                match json_body r with
                | None => Raise ValueError st3
                | Some body =>
                    Ok tt (set_fs (<[file_path := File (json_dumps body)]> (fs st3))
                                  st3)
                end
            end
        end
      else Raise UnicodeEncodeError (requested url st)
  end.
Proof.
  intros Hurl Hget Hstatus. unfold get_from_server, logger_info.
  rewrite Hurl. unfold bind at 1. cbn [lift]. unfold ret at 1.
  unfold bind at 1. rewrite requests_get_run, Hget.
  apply Z.eqb_eq in Hstatus. rewrite Hstatus. cbn [negb].
  unfold bind at 1.
  destruct (join_step_unicode stub path) as [e|file_path]; [done|].
  cbn [lift]. unfold ret at 1.
  unfold bind at 1. unfold encode_ascii.
  destruct (is_ascii file_path); [|done].
  cbn [lift]. unfold ret at 1.
  unfold bind at 1. rewrite logger_run.
  unfold bind at 1. unfold os_path_exists at 1.
  cbv zeta. unfold bind at 1.
  destruct (bool_decide (is_Some (stat _ _))); cbn [negb].
  - unfold ret at 1. unfold bind at 1.
    destruct (open_w _ _) as [[] st3|]; [|done].
    unfold bind, response_json. by destruct (json_body r).
  - destruct (os_makedirs _ _) as [[] st2|]; [|done].
    unfold bind at 1. destruct (open_w _ _) as [[] st3|]; [|done].
    unfold bind, response_json. by destruct (json_body r).
Qed.

(** A fetch that was answered with 200 and completed has written its
    file into a directory that exists. *)
Lemma get_from_server_fetched api stub path url r st st' :
  urljoin_unicode api path = inr url ->
  http (requests st) url = inr r ->
  status_code r = 200%Z ->
  get_from_server soup_select http api stub path st = Ok tt st' ->
  let file_path := os_path_join stub [path] in
  exists body f1,
    json_body r = Some body
    /\ st' = set_fs (<[file_path := File (json_dumps body)]>
                       (<[file_path := File ""]> f1))
               (logged [(INFO, "getting " ++ file_path)] (requested url st))
    /\ file_path <> "" /\ endswith_sep file_path = false
    /\ stat f1 file_path <> Some Dir
    /\ stat f1 (os_path_dirname file_path) = Some Dir
    /\ is_ascii file_path = true.
Proof.
  intros Hurl Hget Hstatus. cbv zeta.
  rewrite (get_from_server_answered _ _ _ _ _ _ Hurl Hget Hstatus).
  destruct (join_step_unicode stub path) as [e|file_path] eqn:Hjoin; [done|].
  apply join_step_unicode_inr in Hjoin.
  change (join_step stub path) with (os_path_join stub [path]) in Hjoin.
  rewrite <- Hjoin. clear Hjoin.
  destruct (is_ascii file_path) eqn:Hascii; [|done]. cbv zeta.
  set (directory := os_path_dirname file_path).
  set (st1 := logged [(INFO, "getting " ++ file_path)] (requested url st)).
  intros Hrun.
  assert (Hdirs : exists f1,
    (if bool_decide (is_Some (stat (fs st1) directory)) then Ok tt st1
     else os_makedirs directory st1) = Ok tt (set_fs f1 st1)
    /\ directory <> "").
  { destruct (bool_decide (is_Some (stat (fs st1) directory))) eqn:Hpresent.
    - exists (fs st1). split; [by destruct st|].
      apply bool_decide_eq_true in Hpresent as [n Hn]. by intros H; rewrite H in Hn.
    - destruct (makedirs_aux_only_fs (S (String.length directory)) directory st1)
        as [f1 Hf1].
      fold (os_makedirs directory st1) in Hf1.
      destruct (os_makedirs directory st1) as [[] st2|e st2] eqn:Hmk; [|done].
      simpl in Hf1. subst st2. exists f1. split; [done|].
      intros H. by rewrite H, os_makedirs_nil in Hmk. }
  destruct Hdirs as (f1 & Hdirs & Hdirectory). rewrite Hdirs in Hrun.
  destruct (open_w file_path (set_fs f1 st1)) as [[] st3|] eqn:Hopen; [|done].
  apply open_w_inv in Hopen as (Hne & Hparent & Hend & Hnodir & ->).
  destruct (json_body r) as [body|]; [|done].
  injection Hrun as <-. exists body, f1. simpl. split_and!; try done.
  unfold parent_error in Hparent. fold directory in Hparent. simpl in Hparent.
  rewrite bool_decide_eq_false_2 in Hparent by done.
  by destruct (stat f1 directory) as [[]|].
Qed.

(** C5: when the fetch of a path is answered with a status other than
    200 (404, say), [get_from_server] logs one error line and returns;
    the files and directories are what they were. *)
Theorem get_from_server_error_keeps_files
    (api stub path url : string) (r : response) (st : state) :
  urljoin_unicode api path = inr url ->
  http (requests st) url = inr r ->
  status_code r <> 200%Z ->
  exists st' msg,
    get_from_server soup_select http api stub path st = Ok tt st'
    /\ fs st' = fs st
    /\ log st' = (log st ++ [(ERROR, msg)])%list
    /\ (msg = getting_message r
        \/ exists title value, msg = sending_message r title value).
Proof.
  intros Hurl Hget Hstatus. eexists _, (error_message soup_select r). split.
  - by apply get_from_server_failed.
  - split; [reflexivity|]. split; [reflexivity|].
    unfold error_message. destruct (extraction soup_select r) as [[title value]|].
    + destruct (is_ascii title && is_ascii value); [right; by eexists _, _|by left].
    + by left.
Qed.

(** *** Reporting an error *)

(** [str(n)] writes a status code as its three digits. *)
Lemma str_of_Z_decimal3 n : (100 <= n <= 999)%Z -> str_of_Z n = decimal3 n.
Proof.
  intros Hn.
  assert (Hall : forallb (fun k => String.eqb (str_of_Z (Z.of_nat k + 100))
                                     (decimal3 (Z.of_nat k + 100)))
                         (seq 0 900) = true) by (vm_compute; reflexivity).
  rewrite forallb_forall in Hall.
  specialize (Hall (Z.to_nat (n - 100))).
  replace (Z.of_nat (Z.to_nat (n - 100)) + 100)%Z with n in Hall by lia.
  apply String.eqb_eq, Hall, in_seq. lia.
Qed.

(** C8 (amended): [handle_error] logs one error line.  When the error
    title and the exception value are found in the page and are ASCII,
    the line gives the status code, the title and the value.  It gives
    the request URL, the status code and the reason instead if and only
    if the [try] block fails: a selector finds nothing, or the title or
    the value holds a character that [str.format] cannot encode. *)
Theorem handle_error_extraction_or_fallback (r : response) (st : state) :
  (100 <= status_code r <= 999)%Z ->
  exists msg,
    handle_error soup_select r st = Ok tt (logged [(ERROR, msg)] st)
    /\ (forall title value,
          extraction soup_select r = Some (title, value) ->
          is_ascii title = true -> is_ascii value = true ->
          msg = "error sending " ++ decimal3 (status_code r) ++ ": "
                ++ title ++ ", " ++ value)
    /\ (msg = "error getting " ++ request_url r ++ ": "
              ++ decimal3 (status_code r) ++ " " ++ reason r
        <-> extraction soup_select r = None
            \/ exists title value,
                 extraction soup_select r = Some (title, value)
                 /\ is_ascii title && is_ascii value = false).
Proof.
  intros Hcode. exists (error_message soup_select r).
  split; [apply handle_error_run|].
  unfold error_message, sending_message, getting_message.
  rewrite (str_of_Z_decimal3 _ Hcode).
  destruct (extraction soup_select r) as [[title value]|].
  - destruct (is_ascii title && is_ascii value) eqn:Hascii.
    + split; [by intros ?? [= <- <-]|]. split.
      * intros H. discriminate H.
      * intros [H|(? & ? & [= <- <-] & H)]; [discriminate H|congruence].
    + split.
      * intros ?? [= <- <-] Ht Hv. by rewrite Ht, Hv in Hascii.
      * split; [|done]. intros _. right. by eexists _, _.
  - split; [done|]. split; [|done]. by left.
Qed.

(** *** The paths of a regulation *)

(** C1 (amended): for an ASCII regulation id and notices that are not
    empty and neither begin nor end with [/],
    [determine_regulation_paths] returns exactly the paths
    [regulation/{id}/{n}], [notice/{n}], [layer/{layer}/{id}/{n}] for
    the eleven layers, and [diff/{id}/{n1}/{n2}] for every ordered pair
    of notices, self-pairs included, and nothing else. *)
Theorem determine_regulation_paths_exact
    (api reg url : string) (notices : list string) (r : response) (body : json)
    (st : state) :
  is_ascii reg = true ->
  clean reg = true ->
  Forall (fun n => clean n = true) notices ->
  urljoin_str api ("regulation/" ++ reg) = inr url ->
  http (requests st) url = inr r ->
  json_body r = Some body ->
  expected_notices body = Some notices ->
  exists found st',
    determine_regulation_paths soup_select http api reg st = Ok found st'
    /\ forall p, In p found <-> listed reg notices p.
Proof.
  intros Hascii Hreg Hns Hurl Hget Hbody Hnotices.
  rewrite (determine_regulation_paths_run _ _ _ _ notices _ Hurl Hget)
    by eauto using body_notices_expected.
  eexists _, _. split; [reflexivity|].
  intros p. rewrite regulation_paths_clean by done. apply listed_spec.
Qed.

(** C9 (amended): for a regulation id that does not begin with [/] and
    notices that are pairwise distinct and contain no [/], the list
    [determine_regulation_paths] returns has no duplicates; a list is
    returned when the id is ASCII. *)
Theorem determine_regulation_paths_distinct
    (api reg url : string) (notices : list string) (r : response) (body : json)
    (st : state) :
  startswith_sep reg = false ->
  Forall (fun n => slash_free n = true) notices ->
  List.NoDup notices ->
  urljoin_str api ("regulation/" ++ reg) = inr url ->
  http (requests st) url = inr r ->
  json_body r = Some body ->
  expected_notices body = Some notices ->
  let run := determine_regulation_paths soup_select http api reg st in
  (forall found st', run = Ok found st' -> List.NoDup found)
  /\ (is_ascii reg = true -> exists found st', run = Ok found st').
Proof.
  intros Hreg Hns Hnodup Hurl Hget Hbody Hnotices run.
  pose proof (body_notices_expected _ _ _ Hbody Hnotices) as Hvs.
  split.
  - intros found st' Hrun.
    rewrite (determine_regulation_paths_returns _ _ _ _ _ _ _ _ Hurl Hget Hvs Hrun).
    by apply regulation_paths_NoDup.
  - intros Hascii. unfold run.
    rewrite (determine_regulation_paths_run _ _ _ _ notices _ Hurl Hget) by eauto.
    by eexists _, _.
Qed.



(** Whatever becomes of it, a fetch adds at most its own request and
    lines to the log, prints nothing, and changes the file system by
    making directories and writing files only. *)
Lemma get_from_server_state api stub path st :
  exists f lines,
    state_of (get_from_server soup_select http api stub path st)
    = mkState f (log st ++ lines)
        (requests st ++ match urljoin_unicode api path with
                        | inr url => [url]
                        | inl _ => []
                        end)
        (stdout st)
    /\ rtc fs_step (fs st) f.
Proof.
  destruct (urljoin_unicode api path) as [e|url] eqn:Hurl.
  { rewrite (get_from_server_no_url _ _ _ _ _ Hurl).
    exists (fs st), []. simpl. rewrite !app_nil_r. by destruct st. }
  destruct (http (requests st) url) as [e|r] eqn:Hget.
  { rewrite (get_from_server_no_answer _ _ _ _ _ _ Hurl Hget).
    exists (fs st), []. simpl. by rewrite !app_nil_r. }
  destruct (decide (status_code r = 200%Z)) as [Hstatus|Hstatus]; cycle 1.
  { rewrite (get_from_server_failed _ _ _ _ _ _ Hurl Hget Hstatus).
    by eexists _, _. }
  rewrite (get_from_server_answered _ _ _ _ _ _ Hurl Hget Hstatus).
  destruct (join_step_unicode stub path) as [e|file_path].
  { exists (fs st), []. simpl. by rewrite !app_nil_r. }
  destruct (is_ascii file_path); cycle 1.
  { exists (fs st), []. simpl. by rewrite !app_nil_r. }
  cbv zeta.
  set (directory := os_path_dirname file_path).
  set (st1 := logged [(INFO, "getting " ++ file_path)] (requested url st)).
  assert (Hdirs : exists f1,
    state_of (if bool_decide (is_Some (stat (fs st1) directory)) then Ok tt st1
              else os_makedirs directory st1) = set_fs f1 st1
    /\ rtc fs_step (fs st) f1).
  { change (fs st) with (fs st1).
    destruct (bool_decide (is_Some (stat (fs st1) directory))).
    - exists (fs st1). by destruct st.
    - apply makedirs_aux_steps. }
  destruct Hdirs as (f1 & Hf1 & Hsteps1).
  destruct (if bool_decide (is_Some (stat (fs st1) directory)) then Ok tt st1
            else os_makedirs directory st1) as [[] st2|e st2];
    simpl in Hf1; subst st2; [|by eexists _, _].
  destruct (open_w file_path (set_fs f1 st1)) as [[] st3|e st3] eqn:Hopen.
  - apply open_w_inv in Hopen as (Hp & Hparent & Hend & Hstat & ->).
    simpl in Hparent, Hstat.
    assert (Hsteps2 : rtc fs_step (fs st) (<[file_path := File ""]> f1)).
    { eapply rtc_r; [done|]. by constructor. }
    destruct (json_body r) as [body|]; [|by eexists _, _].
    eexists _, _. split; [reflexivity|]. simpl.
    eapply rtc_r; [done|]. constructor; try done.
    + by apply parent_error_insert_File.
    + rewrite stat_insert_eq by auto using not_all_sep. done.
  - destruct (open_w_steps file_path (set_fs f1 st1)) as (f2 & Hf2 & Hsteps2).
    rewrite Hopen in Hf2. simpl in Hf2. subst st3.
    eexists _, _. split; [reflexivity|]. simpl. by etrans.
Qed.

(** *** The whole run *)

Lemma settled_run api stub path st st' errs :
  settled soup_select http api stub path st st' errs ->
  get_from_server soup_select http api stub path st = Ok tt st'
  /\ exists url lines,
       urljoin_unicode api path = inr url
       /\ requests st' = (requests st ++ [url])%list
       /\ log st' = (log st ++ lines)%list
       /\ List.filter is_error lines = errs.
Proof.
  intros [url r Hurl Hget Hstatus ->|url r Hurl Hget Hstatus Hrun].
  - split; [by apply get_from_server_failed|].
    exists url, [(ERROR, error_message soup_select r)]. by split_and!.
  - split; [done|].
    destruct (get_from_server_fetched _ _ _ _ _ _ _ Hurl Hget Hstatus Hrun)
      as (body & f1 & _ & -> & _).
    exists url. eexists. split; [done|]. split; [reflexivity|].
    split; reflexivity.
Qed.

Lemma all_settled_run api stub paths st st' errs :
  all_settled soup_select http api stub paths st st' errs ->
  fetch_all soup_select http api stub paths st = Ok tt st'
  /\ exists urls lines,
       Forall2 (fun p u => urljoin_unicode api p = inr u) paths urls
       /\ requests st' = (requests st ++ urls)%list
       /\ log st' = (log st ++ lines)%list
       /\ List.filter is_error lines = errs.
Proof.
  induction 1 as [st|path rest st st1 st' errs1 errs Hstep Hrest (IHrun & IH)].
  - split; [reflexivity|]. exists [], []. by rewrite !app_nil_r.
  - apply settled_run in Hstep as (Hrun & url & lines1 & Hurl & Hreq & Hlog & Herr).
    destruct IH as (urls & lines & Hurls & Hreqs & Hlogs & Herrs).
    split; [simpl; unfold bind; by rewrite Hrun|].
    exists (url :: urls), (lines1 ++ lines)%list. split_and!.
    + by constructor.
    + by rewrite Hreqs, Hreq, <- app_assoc.
    + by rewrite Hlogs, Hlog, <- app_assoc.
    + by rewrite List.filter_app, Herr, Herrs.
Qed.

(** The first fetch that raises ends the loop. *)
Lemma fetch_all_raises api stub before path after e st st1 st2 errs :
  all_settled soup_select http api stub before st st1 errs ->
  get_from_server soup_select http api stub path st1 = Raise e st2 ->
  fetch_all soup_select http api stub (before ++ path :: after) st = Raise e st2.
Proof.
  intros Hsettled Hraise.
  induction Hsettled as [st|p rest st st0 st1 errs1 errs Hstep Hrest IH].
  - simpl. unfold bind. by rewrite Hraise.
  - apply settled_run in Hstep as (Hrun & _).
    simpl. unfold bind. rewrite Hrun. by apply IH.
Qed.

(** C6 (amended): a fetch that is answered with a status other than 200
    is logged and does not end the run.  When every fetch either is
    answered with such a status or completes, [main] returns and the
    exit status is 0, every discovered path has been requested exactly
    once, in order, and the error lines logged during the fetches are
    those of the failed fetches, one for each.  A fetch that raises is
    not caught: the run ends with its exception, the paths after it are
    not requested, and the exit status is 1 (for every exception but
    [SystemExit], which carries a status of its own). *)
Theorem failed_fetches_do_not_abort
    (api stub reg : string) (ps found : list string) (st st0 : state) :
  determine_regulation_paths soup_select http api reg st = Ok found st0 ->
  let run := main soup_select http (mkArgs (Some api) stub (Some reg) ps) st in
  (forall st' errs,
     all_settled soup_select http api stub found st0 st' errs ->
     run = Ok tt st'
     /\ exit_status run = 0%Z
     /\ exists urls lines,
          Forall2 (fun p u => urljoin_unicode api p = inr u) found urls
          /\ requests st' = (requests st0 ++ urls)%list
          /\ log st' = (log st0 ++ lines)%list
          /\ List.filter is_error lines = errs)
  /\ (forall before path after st1 st2 errs e,
        found = (before ++ path :: after)%list ->
        all_settled soup_select http api stub before st0 st1 errs ->
        get_from_server soup_select http api stub path st1 = Raise e st2 ->
        run = Raise e st2
        /\ (is_failure e = true -> exit_status run = 1%Z)
        /\ exists urls,
             Forall2 (fun p u => urljoin_unicode api p = inr u) before urls
             /\ requests st2
                = (requests st0 ++ urls
                   ++ match urljoin_unicode api path with
                      | inr url => [url]
                      | inl _ => []
                      end)%list).
Proof.
  intros Hfound run. split.
  - intros st' errs Hsettled.
    apply all_settled_run in Hsettled as (Hrun & Hrest).
    assert (Hmain : run = Ok tt st').
    { unfold run, main. simpl. unfold bind. by rewrite Hfound. }
    rewrite Hmain. by split_and!.
  - intros before path after st1 st2 errs e -> Hsettled Hraise.
    assert (Hmain : run = Raise e st2).
    { unfold run, main. simpl. unfold bind. rewrite Hfound.
      by apply (fetch_all_raises _ _ _ _ _ _ _ _ _ _ Hsettled). }
    rewrite Hmain. split; [done|]. split; [by destruct e|].
    apply all_settled_run in Hsettled as (_ & urls & lines & Hurls & Hreqs & _).
    exists urls. split; [done|].
    destruct (get_from_server_state api stub path st1) as (f & lines' & Hst & _).
    rewrite Hraise in Hst. simpl in Hst. subst st2. simpl.
    by rewrite Hreqs, <- app_assoc.
Qed.

(** *** The exit of the program *)

Lemma fetch_all_state api stub found st :
  exists f lines urls,
    state_of (fetch_all soup_select http api stub found st)
    = mkState f (log st ++ lines) (requests st ++ urls) (stdout st)
    /\ rtc fs_step (fs st) f.
Proof.
  revert st. induction found as [|path rest IH]; intros st.
  { exists (fs st), [], []. simpl. rewrite !app_nil_r. by destruct st. }
  simpl. unfold bind.
  destruct (get_from_server_state api stub path st) as (f1 & lines1 & Hst1 & Hsteps1).
  destruct (get_from_server soup_select http api stub path st) as [[] st1|e st1];
    simpl in Hst1; subst st1; [|by eexists _, _, _].
  destruct (IH (mkState f1 (log st ++ lines1)
                  (requests st ++ match urljoin_unicode api path with
                                  | inr url => [url]
                                  | inl _ => []
                                  end) (stdout st)))
    as (f & lines & urls & -> & Hsteps).
  simpl in *. eexists _, _, _. rewrite <- !app_assoc.
  split; [reflexivity|]. by etrans.
Qed.

(** C2 (amended): the program logs an error, prints the usage and
    exits with status 1 when [-a] is missing, and when neither [-r] nor
    [-p] is given.  When [-a] and [-r] are given it never prints the
    usage.  When path discovery returns and every fetch either is
    answered with a status other than 200 or completes, every path has
    been requested and the exit status is 0.  An exception that path
    discovery or a fetch raises is not caught: the run ends with it,
    and the exit status is 1 (for every exception but [SystemExit],
    which carries a status of its own). *)
Theorem main_exit_behaviour (a : args) (st : state) :
  let run := main soup_select http a st in
  (api_base a = None \/ (regulation a = None /\ paths a = []) ->
   exit_status run = 1%Z
   /\ stdout (state_of run) = (stdout st ++ [Help])%list
   /\ requests (state_of run) = requests st
   /\ fs (state_of run) = fs st)
  /\ (forall base reg,
        api_base a = Some base -> regulation a = Some reg ->
        stdout (state_of run) = stdout st
        /\ (forall found st0 st' errs,
              determine_regulation_paths soup_select http base reg st
              = Ok found st0 ->
              all_settled soup_select http base (stub_base a) found st0 st' errs ->
              run = Ok tt st'
              /\ exit_status run = 0%Z
              /\ exists urls,
                   Forall2 (fun p u => urljoin_unicode base p = inr u) found urls
                   /\ requests st' = (requests st0 ++ urls)%list)
        /\ (forall e st0,
              determine_regulation_paths soup_select http base reg st
              = Raise e st0 ->
              run = Raise e st0
              /\ (is_failure e = true -> exit_status run = 1%Z))
        /\ (forall found st0 before path after st1 st2 errs e,
              determine_regulation_paths soup_select http base reg st
              = Ok found st0 ->
              found = (before ++ path :: after)%list ->
              all_settled soup_select http base (stub_base a) before st0 st1 errs ->
              get_from_server soup_select http base (stub_base a) path st1
              = Raise e st2 ->
              run = Raise e st2
              /\ (is_failure e = true -> exit_status run = 1%Z))).
Proof.
  intros run. split.
  - intros Husage. unfold run, main.
    destruct (api_base a) as [base|]; [|by repeat split].
    destruct Husage as [?|[-> _]]; [done|]. by repeat split.
  - intros base reg Hbase Hreg. unfold run, main. rewrite Hbase, Hreg.
    split_and!.
    + unfold bind.
      destruct (determine_regulation_paths_state base reg st) as (lines & Hfound).
      destruct (determine_regulation_paths soup_select http base reg st)
        as [found st0|e st0]; simpl in Hfound; subst st0; [|done].
      match goal with |- context [fetch_all _ _ _ _ ?l ?s] =>
        destruct (fetch_all_state base (stub_base a) l s) as (f & ? & ? & -> & _)
      end. done.
    + intros found st0 st' errs Hfound Hsettled.
      apply all_settled_run in Hsettled as (Hrun & urls & lines & Hurls & Hreqs & _).
      unfold bind. rewrite Hfound, Hrun. eauto 6.
    + intros e st0 Hfound. unfold bind. rewrite Hfound.
      split; [done|]. by destruct e.
    + intros found st0 before path after st1 st2 errs e Hfound -> Hsettled Hraise.
      unfold bind. rewrite Hfound.
      rewrite (fetch_all_raises _ _ _ _ _ _ _ _ _ _ Hsettled Hraise).
      split; [done|]. by destruct e.
Qed.

End Properties.

(** ** Beyond the claims *)

Lemma length_flat_map_const {A B} (f : A -> list B) (l : list A) (n : nat) :
  (forall x, List.length (f x) = n) ->
  List.length (List.flat_map f l) = (List.length l * n)%nat.
Proof.
  intros Hf. induction l as [|x l IH]; [reflexivity|].
  simpl. rewrite List.length_app, Hf, IH. lia.
Qed.

Lemma regulation_paths_length reg notices :
  List.length (regulation_paths reg notices)
  = (List.length notices * (List.length notices + 13))%nat.
Proof.
  unfold regulation_paths. rewrite !List.length_app, !List.length_map.
  rewrite (length_flat_map_const _ layers (List.length notices))
    by (intros; apply List.length_map).
  rewrite (length_flat_map_const _ notices (List.length notices))
    by (intros; apply List.length_map).
  change (List.length layers) with 11%nat. lia.
Qed.

Lemma rsplit_sep_slash_free p : slash_free p = true -> rsplit_sep p = ("", p).
Proof.
  unfold slash_free. induction p as [|c p IH]; [done|]. simpl.
  intros [Hc Hp]%negb_true_iff%orb_false_iff.
  rewrite IH by by apply negb_true_iff.
  unfold is_sep. by rewrite Hc.
Qed.

Lemma os_path_dirname_slash_free p : slash_free p = true -> os_path_dirname p = "".
Proof.
  intros Hp. unfold os_path_dirname, os_path_split.
  by rewrite rsplit_sep_slash_free.
Qed.

Lemma is_ascii_join_step_r path b :
  is_ascii b = false -> is_ascii (join_step path b) = false.
Proof.
  intros Hb. unfold join_step.
  destruct (startswith_sep b); [done|].
  destruct (_ && _).
  - rewrite is_ascii_append.
    change (is_ascii (String sep b)) with (is_ascii_char sep && is_ascii b).
    rewrite Hb. by rewrite !andb_false_r.
  - by rewrite is_ascii_append, Hb, andb_false_r.
Qed.

(** *** What [json.dumps] writes *)

Lemma printable_append s t : printable (s ++ t) = printable s && printable t.
Proof.
  unfold printable. induction s as [|c s IH]; [reflexivity|].
  rewrite append_cons. simpl. by rewrite IH, andb_assoc.
Qed.

Lemma escape_char_printable c : printable (escape_char c) = true.
Proof. by destruct c as [[] [] [] [] [] [] [] []]; vm_compute. Qed.

Lemma escape_printable s : printable (escape s) = true.
Proof.
  induction s as [|c s IH]; [reflexivity|].
  simpl. by rewrite printable_append, escape_char_printable, IH.
Qed.

Lemma encode_basestring_ascii_printable s :
  printable (encode_basestring_ascii s) = true.
Proof.
  unfold encode_basestring_ascii.
  change (String quote (escape s ++ String quote ""))
    with (String quote "" ++ escape s ++ String quote "").
  by rewrite !printable_append, escape_printable.
Qed.

Lemma string_of_uint_printable d : printable (NilEmpty.string_of_uint d) = true.
Proof. induction d; simpl; done. Qed.

Lemma str_of_Z_printable n : printable (str_of_Z n) = true.
Proof.
  unfold str_of_Z. destruct (Z.to_int n) as [d|d]; simpl.
  - apply string_of_uint_printable.
  - apply (string_of_uint_printable d).
Qed.

Lemma json_dumps_printable v :
  floats_printable v = true -> printable (json_dumps v) = true.
Proof.
  induction v as [|b|n|repr|s|items IH|members IH] using json_induction.
  - done.
  - by destruct b.
  - intros _. apply str_of_Z_printable.
  - done.
  - intros _. apply encode_basestring_ascii_printable.
  - intros Hitems. simpl in Hitems. simpl json_dumps.
    rewrite !printable_append. rewrite andb_true_r. simpl.
    induction IH as [|x rest Hx _ IHrest]; [done|].
    simpl in Hitems. apply andb_true_iff in Hitems as [Hfx Hfrest].
    destruct rest as [|y rest]; [by apply Hx|].
    rewrite !printable_append, (Hx Hfx). simpl. by apply IHrest.
  - intros Hmembers. simpl in Hmembers. simpl json_dumps.
    rewrite !printable_append. rewrite andb_true_r. simpl.
    induction IH as [|[k x] rest Hx _ IHrest]; [done|].
    simpl in Hmembers, Hx. apply andb_true_iff in Hmembers as [Hfx Hfrest].
    destruct rest as [|y rest].
    + rewrite !printable_append, encode_basestring_ascii_printable, (Hx Hfx).
      done.
    + rewrite !printable_append, encode_basestring_ascii_printable, (Hx Hfx).
      simpl. by apply IHrest.
Qed.


Section Coverage.

Variable soup_select : string -> string -> list string.
Variable http : network.

(** *** The command line *)

(** X1: the run with [-a] and [-p] but no [-r]: [main] logs the error
    [no paths or regulation to get. Use -r or -p to specify.], prints
    the usage and exits with status 1; no path of [-p] is requested and
    no file is written. *)
Theorem main_paths_without_regulation_exits
    (base stub : string) (ps : list string) (st : state) :
  let run := main soup_select http (mkArgs (Some base) stub None ps) st in
  exit_status run = 1%Z
  /\ log (state_of run)
     = (log st
        ++ [(ERROR, "no paths or regulation to get. Use -r or -p to specify.")])%list
  /\ stdout (state_of run) = (stdout st ++ [Help])%list
  /\ requests (state_of run) = requests st
  /\ fs (state_of run) = fs st.
Proof. repeat split. Qed.

(** *** Path discovery *)

(** X2: for an ASCII regulation id and [n] notices, path discovery
    returns the [n] regulation paths, then the [n] notice paths, then
    the [11 * n] layer paths, layer by layer, then the [n * n] diff
    paths, first notice by first notice: [n * (n + 13)] paths. *)
Theorem determine_regulation_paths_count
    (api reg url : string) (notices : list string) (r : response) (body : json)
    (st : state) :
  is_ascii reg = true ->
  urljoin_str api ("regulation/" ++ reg) = inr url ->
  http (requests st) url = inr r ->
  json_body r = Some body ->
  expected_notices body = Some notices ->
  let n := List.length notices in
  let regulations :=
    List.map (fun n => os_path_join "regulation" [reg; n]) notices in
  let notice_paths := List.map (fun n => os_path_join "notice" [n]) notices in
  let layer_paths :=
    List.flat_map
      (fun layer =>
         List.map (fun n => os_path_join "layer" [layer; reg; n]) notices)
      layers in
  let diffs :=
    List.flat_map
      (fun n1 => List.map (fun n2 => os_path_join "diff" [reg; n1; n2]) notices)
      notices in
  exists st',
    determine_regulation_paths soup_select http api reg st
    = Ok (regulations ++ notice_paths ++ layer_paths ++ diffs)%list st'
    /\ List.length regulations = n
    /\ List.length notice_paths = n
    /\ List.length layer_paths = (11 * n)%nat
    /\ List.length diffs = (n * n)%nat
    /\ List.length (regulations ++ notice_paths ++ layer_paths ++ diffs)%list
       = (n * (n + 13))%nat.
Proof.
  intros Hascii Hurl Hget Hbody Hnotices n regulations notice_paths layer_paths
    diffs.
  rewrite (determine_regulation_paths_run _ _ _ _ _ _ notices _ Hurl Hget)
    by eauto using body_notices_expected.
  eexists. split; [reflexivity|].
  unfold regulations, notice_paths, layer_paths, diffs.
  rewrite !List.length_app, !List.length_map.
  rewrite (length_flat_map_const _ layers (List.length notices))
    by (intros; apply List.length_map).
  rewrite (length_flat_map_const _ notices (List.length notices))
    by (intros; apply List.length_map).
  change (List.length layers) with 11%nat. fold n. split_and!; lia.
Qed.

(** X3: when the versions list names a notice more than once, the list
    path discovery returns (for an ASCII id) holds paths more than
    once, whatever the notices look like. *)
Theorem repeated_notice_repeats_paths
    (api reg url : string) (notices : list string) (r : response) (body : json)
    (st : state) :
  is_ascii reg = true ->
  urljoin_str api ("regulation/" ++ reg) = inr url ->
  http (requests st) url = inr r ->
  json_body r = Some body ->
  expected_notices body = Some notices ->
  ~ List.NoDup notices ->
  exists found st',
    determine_regulation_paths soup_select http api reg st = Ok found st'
    /\ ~ List.NoDup found.
Proof.
  intros Hascii Hurl Hget Hbody Hnotices Hrepeated.
  rewrite (determine_regulation_paths_run _ _ _ _ _ _ notices _ Hurl Hget)
    by eauto using body_notices_expected.
  eexists _, _. split; [reflexivity|].
  intros Hfound. apply Hrepeated. unfold regulation_paths in Hfound.
  apply List.NoDup_app_remove_l, List.NoDup_app_remove_r in Hfound.
  by apply List.NoDup_map_inv in Hfound.
Qed.


(** X5: path discovery leaves the file system and the standard output
    alone, and it makes one request (none when the URL cannot be
    built), whether it returns or raises. *)
Theorem determine_regulation_paths_keeps_files
    (api reg : string) (st : state) :
  let st' := state_of (determine_regulation_paths soup_select http api reg st) in
  fs st' = fs st
  /\ stdout st' = stdout st
  /\ requests st'
     = (requests st ++ match urljoin_str api ("regulation/" ++ reg) with
                       | inr url => [url]
                       | inl _ => []
                       end)%list.
Proof.
  destruct (determine_regulation_paths_state soup_select http api reg st)
    as (lines & Hstate).
  cbv zeta. by rewrite Hstate.
Qed.

(** X6: for a regulation without notices (an empty versions array, or
    an empty object or string in its place) the run makes the request
    for the regulation and nothing else: it logs the four [generating]
    lines, fetches no path, writes no file, and the exit status is 0. *)
Theorem regulation_without_notices_fetches_nothing
    (api stub reg url : string) (ps : list string) (r : response) (body : json)
    (st : state) :
  urljoin_str api ("regulation/" ++ reg) = inr url ->
  http (requests st) url = inr r ->
  json_body r = Some body ->
  expected_notices body = Some [] \/ empty_versions body = true ->
  let run := main soup_select http (mkArgs (Some api) stub (Some reg) ps) st in
  run = Ok tt (logged (generating_log reg) (received soup_select url r st))
  /\ exit_status run = 0%Z
  /\ requests (state_of run) = (requests st ++ [url])%list
  /\ fs (state_of run) = fs st.
Proof.
  intros Hurl Hget Hjson Hshape run.
  assert (Hbody : body_notices r = inr (List.map JStr [])).
  { unfold body_notices. rewrite Hjson. destruct Hshape as [Hexp|Hempty].
    - by apply notices_of_expected.
    - by apply notices_of_empty_versions. }
  assert (Hrun : run = Ok tt (logged (generating_log reg)
                                     (received soup_select url r st))).
  { unfold run, main. simpl. unfold bind.
    by rewrite (determine_regulation_paths_run _ _ _ _ _ _ [] _ Hurl Hget Hbody)
      by by right. }
  rewrite Hrun. split_and!; try done; simpl;
    unfold received; by destruct (status_code r =? 200)%Z.
Qed.

(** X7: an exception of [requests.get] is not caught.  When the request
    for the regulation raises, the run ends with that exception: nothing
    is logged, nothing is fetched.  When the request of a fetch raises,
    [get_from_server] raises it, having logged and written nothing. *)
Theorem connection_error_is_not_caught
    (api stub reg path url : string) (ps : list string) (e : exn) (st : state) :
  http (requests st) url = inl e ->
  (urljoin_str api ("regulation/" ++ reg) = inr url ->
   main soup_select http (mkArgs (Some api) stub (Some reg) ps) st
   = Raise e (requested url st))
  /\ (urljoin_unicode api path = inr url ->
      get_from_server soup_select http api stub path st
      = Raise e (requested url st)).
Proof.
  intros Hget. split; intros Hurl.
  - unfold main. simpl. unfold bind at 1.
    by rewrite (determine_regulation_paths_no_answer _ _ _ _ _ _ _ Hurl Hget).
  - by apply get_from_server_no_answer.
Qed.

(** X9: [urljoin] raises nothing but [ValueError], and when it raises
    for the URL of the regulation the run ends there: no request is
    made, nothing is logged or written, and the exit status is 1. *)
Theorem invalid_url_ends_the_run_before_any_request
    (api stub reg : string) (ps : list string) (e : exn) (st : state) :
  urljoin_str api ("regulation/" ++ reg) = inl e ->
  let run := main soup_select http (mkArgs (Some api) stub (Some reg) ps) st in
  e = ValueError /\ run = Raise ValueError st /\ exit_status run = 1%Z.
Proof.
  intros Hurl run. pose proof (urljoin_str_exn _ _ _ Hurl) as ->.
  assert (Hrun : run = Raise ValueError st).
  { unfold run, main. simpl. unfold bind at 1.
    by rewrite (determine_regulation_paths_no_url _ _ _ _ _ _ Hurl). }
  by rewrite Hrun.
Qed.

(** X22: a regulation id with a byte that is not ASCII cannot be joined
    with the notices of the document, which are [unicode]: when the
    first notice does not begin with [/], [os.path.join] raises
    [UnicodeDecodeError] after the first [generating] line, and the run
    ends with status 1 before any path is fetched. *)
Theorem non_ascii_id_raises
    (api stub reg url n : string) (ps notices : list string) (r : response)
    (body : json) (st : state) :
  is_ascii reg = false ->
  urljoin_str api ("regulation/" ++ reg) = inr url ->
  http (requests st) url = inr r ->
  json_body r = Some body ->
  expected_notices body = Some (n :: notices) ->
  startswith_sep n = false ->
  let run := main soup_select http (mkArgs (Some api) stub (Some reg) ps) st in
  run = Raise UnicodeDecodeError
          (logged [(INFO, "generating paths for regulation " ++ reg ++ "...")]
             (received soup_select url r st))
  /\ exit_status run = 1%Z
  /\ requests (state_of run) = (requests st ++ [url])%list
  /\ fs (state_of run) = fs st.
Proof.
  intros Hascii Hurl Hget Hjson Hnotices Hn run.
  pose proof (body_notices_expected _ _ _ Hjson Hnotices) as Hbody.
  assert (Hjoin : map_exn (join_value (os_path_join "regulation" [reg]))
                    (List.map JStr (n :: notices)) = inl UnicodeDecodeError).
  { simpl. unfold join_value at 1. simpl. unfold join_step_unicode.
    rewrite Hn. change (join_step "regulation" reg)
      with (os_path_join "regulation" [reg]).
    unfold os_path_join. simpl. by rewrite is_ascii_join_step_r. }
  assert (Hrun : run = Raise UnicodeDecodeError
            (logged [(INFO, "generating paths for regulation " ++ reg ++ "...")]
               (received soup_select url r st))).
  { unfold run, main. simpl. unfold bind at 1.
    by rewrite (determine_regulation_paths_first_join _ _ _ _ _ _ _ _ _
                  Hurl Hget Hbody Hjoin). }
  rewrite Hrun. split_and!; try done; simpl;
    unfold received; by destruct (status_code r =? 200)%Z.
Qed.

(** *** Fetching *)

(** What [get_from_server] does with an ASCII path under an ASCII
    [stub_base], once the server has answered with 200. *)
Lemma get_from_server_answered_ascii api stub path url r st :
  urljoin_unicode api path = inr url ->
  http (requests st) url = inr r ->
  status_code r = 200%Z ->
  is_ascii stub = true ->
  is_ascii path = true ->
  get_from_server soup_select http api stub path st =
  let file_path := os_path_join stub [path] in
  let directory := os_path_dirname file_path in
  let st1 := logged [(INFO, "getting " ++ file_path)] (requested url st) in
  match (if bool_decide (is_Some (stat (fs st1) directory)) then Ok tt st1
         else os_makedirs directory st1) with
  | Raise e st2 => Raise e st2
  | Ok _ st2 =>
      match open_w file_path st2 with
      | Raise e st3 => Raise e st3
      | Ok _ st3 =>
          match json_body r with
          | None => Raise ValueError st3
          | Some body =>
              Ok tt (set_fs (<[file_path := File (json_dumps body)]> (fs st3)) st3)
          end
      end
  end.
Proof.
  intros Hurl Hget Hstatus Hstub Hpath.
  rewrite (get_from_server_answered _ _ _ _ _ _ _ _ Hurl Hget Hstatus).
  rewrite join_step_unicode_ascii by done.
  change (join_step stub path) with (os_path_join stub [path]).
  by rewrite is_ascii_os_path_join by (by repeat constructor).
Qed.



(** X21: when a fetch of [path] has been answered with 200 and has
    completed, fetching [path] again, with an answer of 200 and a JSON
    body, does not raise: the file [os.path.join(stub_base, path)] that
    the first fetch wrote is overwritten with the re-serialized body of
    the second answer, and nothing else changes.  That file is
    [{stub_base}/{path}] when [path] does not begin with [/] and
    [stub_base] is not empty and does not end with [/]. *)
Theorem get_from_server_again_overwrites
    (api stub path url : string) (r1 r2 : response) (body2 : json)
    (st st1 st1' : state) :
  urljoin_unicode api path = inr url ->
  http (requests st) url = inr r1 ->
  status_code r1 = 200%Z ->
  get_from_server soup_select http api stub path st = Ok tt st1 ->
  fs st1' = fs st1 ->
  http (requests st1') url = inr r2 ->
  status_code r2 = 200%Z ->
  json_body r2 = Some body2 ->
  let file_path := os_path_join stub [path] in
  exists body1 st2,
    json_body r1 = Some body1
    /\ fs st1 !! file_path = Some (File (json_dumps body1))
    /\ get_from_server soup_select http api stub path st1' = Ok tt st2
    /\ fs st2 = <[file_path := File (json_dumps body2)]> (fs st1)
    /\ (stub <> "" -> endswith_sep stub = false -> startswith_sep path = false ->
        file_path = stub ++ "/" ++ path).
Proof.
  intros Hurl Hget1 Hstatus1 Hrun1 Hfs Hget2 Hstatus2 Hbody2 file_path.
  assert (Hjoin : join_step_unicode stub path = inr file_path).
  { rewrite (get_from_server_answered _ _ _ _ _ _ _ _ Hurl Hget1 Hstatus1) in Hrun1.
    destruct (join_step_unicode stub path) as [e|p] eqn:Hjoin; [done|].
    by rewrite (join_step_unicode_inr _ _ _ Hjoin). }
  destruct (get_from_server_fetched _ _ _ _ _ _ _ _ _ Hurl Hget1 Hstatus1 Hrun1)
    as (body1 & f1 & Hbody1 & Hst1 & Hne & Hend & Hnodir & Hdir & Hascii).
  fold file_path in Hst1, Hne, Hend, Hnodir, Hdir, Hascii.
  set (directory := os_path_dirname file_path) in *.
  assert (Hdiff : file_path <> directory) by congruence.
  assert (Hall : all_sep file_path = false) by by apply not_all_sep.
  assert (Hfs1 : fs st1 = <[file_path := File (json_dumps body1)]>
                            (<[file_path := File ""]> f1)) by by rewrite Hst1.
  assert (Hdir1 : stat (fs st1) directory = Some Dir).
  { by rewrite Hfs1, !stat_insert_ne. }
  assert (Hfile1 : stat (fs st1) file_path = Some (File (json_dumps body1))).
  { by rewrite Hfs1, stat_insert_eq. }
  exists body1. eexists. split; [done|].
  split; [by rewrite Hfs1, lookup_insert_eq|].
  rewrite (get_from_server_answered _ _ _ _ _ _ _ _ Hurl Hget2 Hstatus2).
  rewrite Hjoin, Hascii, Hbody2. cbv zeta. fold directory.
  set (st2 := logged _ (requested url st1')).
  change (fs st2) with (fs st1'). rewrite Hfs, Hdir1.
  rewrite bool_decide_eq_true_2 by eauto.
  rewrite (open_w_run file_path st2); cycle 1.
  { done. }
  { change (fs st2) with (fs st1'). rewrite Hfs. unfold parent_error.
    fold directory. rewrite Hdir1. by destruct (bool_decide (directory = "")). }
  { done. }
  { change (fs st2) with (fs st1'). rewrite Hfs, Hfile1. done. }
  split; [reflexivity|]. simpl. split.
  - rewrite Hfs. apply insert_insert_eq.
  - intros H1 H2 H3. unfold file_path, os_path_join. simpl.
    by apply join_step_clean.
Qed.



(** X12: with an empty [stub_base], an ASCII path without [/] cannot be
    saved: the file would lie in the working directory, whose name ['']
    does not exist for [os.path.exists] and cannot be made by
    [os.makedirs], which raises [OSError] ([ENOENT]).  Nothing is
    written. *)
Theorem empty_directory_name_raises
    (api path url : string) (r : response) (st : state) :
  urljoin_unicode api path = inr url ->
  http (requests st) url = inr r ->
  status_code r = 200%Z ->
  is_ascii path = true ->
  slash_free path = true ->
  get_from_server soup_select http api "" path st
  = Raise (OSError ENOENT)
          (logged [(INFO, "getting " ++ path)] (requested url st)).
Proof.
  intros Hurl Hget Hstatus Hascii Hpath.
  rewrite (get_from_server_answered_ascii api "" path url r st
             Hurl Hget Hstatus eq_refl Hascii).
  assert (Hjoin : os_path_join "" [path] = path).
  { unfold os_path_join. simpl. unfold join_step.
    by rewrite (slash_free_relative _ Hpath). }
  rewrite Hjoin. cbv zeta.
  rewrite (os_path_dirname_slash_free _ Hpath).
  by rewrite os_makedirs_nil.
Qed.

(** X13: the file of a completed fetch is one line of printable ASCII:
    the re-serialized body holds no line break, no control character
    and no byte above 127, whatever the strings of the document are
    (its floats being written as Python writes them). *)
Theorem saved_file_is_printable_ascii
    (api stub path url : string) (r : response) (body : json) (st st' : state) :
  urljoin_unicode api path = inr url ->
  http (requests st) url = inr r ->
  status_code r = 200%Z ->
  json_body r = Some body ->
  floats_printable body = true ->
  get_from_server soup_select http api stub path st = Ok tt st' ->
  exists content,
    fs st' !! os_path_join stub [path] = Some (File content)
    /\ printable content = true.
Proof.
  intros Hurl Hget Hstatus Hbody Hfloats Hrun.
  destruct (get_from_server_fetched _ _ _ _ _ _ _ _ _ Hurl Hget Hstatus Hrun)
    as (body' & f1 & Hbody' & -> & _).
  rewrite Hbody in Hbody'. injection Hbody' as <-.
  exists (json_dumps body). split; [apply lookup_insert_eq|].
  by apply json_dumps_printable.
Qed.

(** X23: a path with a character that is not ASCII is never saved:
    when its fetch is answered with 200, [get_from_server] raises
    [UnicodeDecodeError] (in [os.path.join], when [stub_base] is not
    ASCII either and the path does not begin with [/]) or
    [UnicodeEncodeError] (in [str.format]) before it logs or writes
    anything. *)
Theorem non_ascii_path_is_not_saved
    (api stub path url : string) (r : response) (st : state) :
  urljoin_unicode api path = inr url ->
  http (requests st) url = inr r ->
  status_code r = 200%Z ->
  is_ascii path = false ->
  get_from_server soup_select http api stub path st
  = Raise (if is_ascii stub || startswith_sep path
           then UnicodeEncodeError else UnicodeDecodeError)
          (requested url st).
Proof.
  intros Hurl Hget Hstatus Hpath.
  rewrite (get_from_server_answered _ _ _ _ _ _ _ _ Hurl Hget Hstatus).
  unfold join_step_unicode.
  destruct (startswith_sep path) eqn:Habs.
  - rewrite Hpath. by rewrite orb_true_r.
  - rewrite orb_false_r. destruct (is_ascii stub); [|done].
    by rewrite is_ascii_join_step_r.
Qed.

(** *** The whole run *)

(** X17: for an ASCII regulation id, a run in which every fetch is
    settled makes one request for the regulation and one for each
    discovered path: [1 + n * (n + 13)] requests for a regulation with
    [n] notices. *)
Theorem settled_run_request_count
    (api stub reg url : string) (ps notices : list string) (r : response)
    (body : json) (st st' : state) (errs : list (level * string)) :
  is_ascii reg = true ->
  urljoin_str api ("regulation/" ++ reg) = inr url ->
  http (requests st) url = inr r ->
  json_body r = Some body ->
  expected_notices body = Some notices ->
  all_settled soup_select http api stub (regulation_paths reg notices)
    (logged (generating_log reg) (received soup_select url r st)) st' errs ->
  main soup_select http (mkArgs (Some api) stub (Some reg) ps) st = Ok tt st'
  /\ List.length (requests st')
     = (List.length (requests st) + 1
        + List.length notices * (List.length notices + 13))%nat.
Proof.
  intros Hascii Hurl Hget Hjson Hnotices Hsettled.
  apply all_settled_run in Hsettled
    as (Hrun & urls & lines & Hurls & Hrequests & _).
  split.
  - unfold main. simpl. unfold bind at 1.
    by rewrite (determine_regulation_paths_run _ _ _ _ _ _ notices _ Hurl Hget)
      by eauto using body_notices_expected.
  - rewrite Hrequests, List.length_app.
    rewrite <- (Forall2_length _ _ _ Hurls), regulation_paths_length.
    assert (Hrec : requests (received soup_select url r st)
                   = (requests st ++ [url])%list).
    { unfold received. by destruct (status_code r =? 200)%Z. }
    simpl. rewrite Hrec, List.length_app. simpl. lia.
Qed.

(** *** The file system during a run *)

Lemma main_steps a st :
  rtc fs_step (fs st) (fs (state_of (main soup_select http a st))).
Proof.
  unfold main. destruct (api_base a) as [base|]; [|done].
  destruct (regulation a) as [reg|]; [|done].
  unfold bind.
  destruct (determine_regulation_paths_state soup_select http base reg st)
    as (lines & Hfound).
  destruct (determine_regulation_paths soup_select http base reg st)
    as [found st0|e st0]; simpl in Hfound; subst st0; [|done].
  match goal with |- context [fetch_all _ _ _ _ ?l ?s] =>
    destruct (fetch_all_state soup_select http base (stub_base a) l s)
      as (f & ? & ? & -> & Hsteps)
  end. done.
Qed.

(** X18: whatever the command line and the server, and however the run
    ends, it deletes nothing: what was a directory before the run is a
    directory after it, and what was a file is a file (its content may
    have changed). *)
Theorem run_never_deletes (a : args) (st : state) :
  kept (fs st) (fs (state_of (main soup_select http a st))).
Proof. apply fs_steps_kept, main_steps. Qed.

(** X19: when every entry of the file system lies in a directory that
    exists, this is still so after the run, however the run ends. *)
Theorem run_keeps_well_formed (a : args) (st : state) :
  well_formed (fs st) ->
  well_formed (fs (state_of (main soup_select http a st))).
Proof. apply fs_steps_well_formed, main_steps. Qed.

End Coverage.

(** ** The properties at work *)

Ltac settle_one :=
  first
    [ solve [ eapply settled_failed;
              [ vm_compute; reflexivity
              | vm_compute; reflexivity
              | vm_compute; intros Hstatus; discriminate Hstatus
              | reflexivity ] ]
    | solve [ eapply settled_fetched;
              [ vm_compute; reflexivity
              | vm_compute; reflexivity
              | vm_compute; reflexivity
              | vm_compute; reflexivity ] ] ].

Ltac settle_all :=
  repeat (eapply all_settled_cons; [settle_one|]); apply all_settled_nil.

Lemma determine_regulation_paths_exact_witness :
  exists found st',
    determine_regulation_paths no_soup sample_http sample_api "1026" initial_state
    = Ok found st'
    /\ forall p, In p found <-> listed "1026" ["2011-1"; "2012-2"] p.
Proof.
  apply (determine_regulation_paths_exact no_soup sample_http sample_api "1026"
           sample_reg_url ["2011-1"; "2012-2"]
           (ok_response sample_reg_url (versions_doc ["2011-1"; "2012-2"]))
           (versions_doc ["2011-1"; "2012-2"])
           initial_state).
  - reflexivity.
  - reflexivity.
  - repeat constructor.
  - vm_compute. reflexivity.
  - reflexivity.
  - reflexivity.
  - reflexivity.
Defined.

Ltac not_listed :=
  unfold listed, regulation_path, notice_path, layer_path, diff_path;
  intros [(n & Hn & H)|[(n & Hn & H)|[(l & n & Hl & Hn & H)|(n1 & n2 & H1 & H2 & H)]]];
  simpl in *;
  repeat match goal with
         | H : _ \/ _ |- _ => destruct H
         | H : False |- _ => destruct H
         end; subst; discriminate.

(** C1 as it is stated fails for an id that ends with [/], where the
    paths have one [/] after the id, not two; for an id that begins
    with [/], where [os.path.join] drops what stands before the id;
    for a notice that ends with [/], in the same way; and for an id
    with a byte that is not ASCII, which cannot be joined with the
    notices of the document. *)
Lemma regulation_id_with_slash :
  (exists found st',
     determine_regulation_paths no_soup
       (sample_server "http://localhost:8000/api/regulation/1026/" ["2011-1"] [])
       sample_api "1026/" initial_state
     = Ok found st'
     /\ In "regulation/1026/2011-1" found
     /\ ~ listed "1026/" ["2011-1"] "regulation/1026/2011-1")
  /\ (exists found st',
        determine_regulation_paths no_soup
          (sample_server "http://localhost:8000/api/regulation//1026" ["2011-1"] [])
          sample_api "/1026" initial_state
        = Ok found st'
        /\ In "/1026/2011-1" found
        /\ ~ listed "/1026" ["2011-1"] "/1026/2011-1")
  /\ (exists found st',
        determine_regulation_paths no_soup
          (sample_server sample_reg_url ["2011-1/"] [])
          sample_api "1026" initial_state
        = Ok found st'
        /\ In "diff/1026/2011-1/2011-1/" found
        /\ ~ listed "1026" ["2011-1/"] "diff/1026/2011-1/2011-1/")
  /\ (exists st',
        determine_regulation_paths no_soup cafe_http sample_api cafe initial_state
        = Raise UnicodeDecodeError st').
Proof.
  split; [|split; [|split]].
  - eexists _, _. split; [vm_compute; reflexivity|]. split; [by left|]. not_listed.
  - eexists _, _. split; [vm_compute; reflexivity|]. split; [by left|]. not_listed.
  - eexists _, _. split; [vm_compute; reflexivity|].
    split; [simpl; tauto|]. not_listed.
  - eexists. vm_compute. reflexivity.
Qed.

(** C3: the paths are not appended to an [api_base] whose path does not
    end with [/], although the docstring of [get_from_server] says
    they are: [urljoin] replaces the last segment of the path of
    [api_base].  With [http://localhost:8000/api] the request for the
    regulation goes to [http://localhost:8000/regulation/1026] and the
    fetch of [notice/2011-1] to [http://localhost:8000/notice/2011-1];
    with [http://localhost:8000/api/] they go to the URLs with [api/]
    in them. *)
Theorem api_base_without_trailing_slash :
  requests (state_of (determine_regulation_paths no_soup sample_http
                        "http://localhost:8000/api" "1026" initial_state))
  = ["http://localhost:8000/regulation/1026"]
  /\ requests (state_of (get_from_server no_soup sample_http
                           "http://localhost:8000/api" "stub" "notice/2011-1"
                           initial_state))
     = ["http://localhost:8000/notice/2011-1"]
  /\ requests (state_of (determine_regulation_paths no_soup sample_http
                           "http://localhost:8000/api/" "1026" initial_state))
     = ["http://localhost:8000/api/regulation/1026"]
  /\ requests (state_of (get_from_server no_soup sample_http
                           "http://localhost:8000/api/" "stub" "notice/2011-1"
                           initial_state))
     = ["http://localhost:8000/api/notice/2011-1"].
Proof. vm_compute. repeat split. Qed.

(** The document [{"a":1}] as [json.dump] writes it. *)
Example json_dumps_example :
  json_dumps (JObj [("a", JInt 1)])
  = "{" ++ String quote ("a" ++ String quote ": 1}").
Proof. reflexivity. Qed.

(** C4: a path that begins with [/] is not saved under [stub_base],
    although the docstring of [get_from_server] says the file is saved
    to [stub_base]: [os.path.join] drops [stub_base].  A versions list
    that names the notice [/tmp/2011-1] makes every discovered path
    [/tmp/2011-1]; its fetch writes the file [/tmp/2011-1] and nothing
    under [stub]. *)
Theorem absolute_path_is_written_outside_stub_base :
  (exists st0,
     determine_regulation_paths no_soup escaping_http sample_api "1026"
       initial_state
     = Ok (List.repeat "/tmp/2011-1" 14) st0)
  /\ (exists st',
        get_from_server no_soup escaping_http sample_api "stub" "/tmp/2011-1"
          initial_state = Ok tt st'
        /\ requests st' = ["http://localhost:8000/tmp/2011-1"]
        /\ fs st' !! "/tmp/2011-1"
           = Some (File (json_dumps (JObj [("a", JInt 0)])))
        /\ fs st' !! "stub//tmp/2011-1" = None
        /\ fs st' !! "stub/tmp/2011-1" = None
        /\ fs st' !! "stub" = None).
Proof. split; [eexists|eexists]; vm_compute; repeat split. Qed.

Lemma get_from_server_error_keeps_files_witness :
  exists st' msg,
    get_from_server no_soup sample_http sample_api "stub" "notice/2012-2"
      initial_state = Ok tt st'
    /\ fs st' = fs initial_state
    /\ log st' = (log initial_state ++ [(ERROR, msg)])%list
    /\ (msg = getting_message
                (not_found "http://localhost:8000/api/notice/2012-2")
        \/ exists title value,
             msg = sending_message
                     (not_found "http://localhost:8000/api/notice/2012-2")
                     title value).
Proof.
  apply (get_from_server_error_keeps_files no_soup sample_http sample_api "stub"
           "notice/2012-2" "http://localhost:8000/api/notice/2012-2"
           (not_found "http://localhost:8000/api/notice/2012-2") initial_state).
  - vm_compute. reflexivity.
  - reflexivity.
  - discriminate.
Defined.

Lemma failed_fetches_do_not_abort_witness :
  (exists st' errs,
     (let run := main no_soup small_http sample_args initial_state in
      run = Ok tt st'
      /\ exit_status run = 0%Z
      /\ exists urls lines,
           Forall2 (fun p u => urljoin_unicode sample_api p = inr u)
                   (regulation_paths "1026" ["2011-1"]) urls
           /\ requests st' = ([sample_reg_url] ++ urls)%list
           /\ log st' = (generating_log "1026" ++ lines)%list
           /\ List.filter is_error lines = errs)
     /\ List.length errs = 13%nat
     /\ fs st' !! "stub/notice/2011-1"
        = Some (File (json_dumps (JObj [("a", JInt 1)]))))
  /\ (let run := main no_soup vanishing_http sample_args initial_state in
      exit_status run = 1%Z
      /\ requests (state_of run)
         = [sample_reg_url; "http://localhost:8000/api/regulation/1026/2011-1"]).
Proof.
  split.
  - destruct (failed_fetches_do_not_abort no_soup small_http sample_api "stub"
                "1026" []
                (regulation_paths "1026" ["2011-1"])
                initial_state
                (logged (generating_log "1026")
                        (requested sample_reg_url initial_state))
                ltac:(vm_compute; reflexivity)) as [Hsettled _].
    eexists _, _. split; [|split].
    + apply Hsettled. vm_compute regulation_paths. settle_all.
    + reflexivity.
    + vm_compute. reflexivity.
  - destruct (failed_fetches_do_not_abort no_soup vanishing_http sample_api "stub"
                "1026" []
                (regulation_paths "1026" ["2011-1"])
                initial_state
                (logged (generating_log "1026")
                        (requested sample_reg_url initial_state))
                ltac:(vm_compute; reflexivity)) as [_ Hraise].
    destruct (Hraise [] "regulation/1026/2011-1"
                (List.tl (regulation_paths "1026" ["2011-1"]))
                _ _ [] RequestException
                ltac:(vm_compute; reflexivity)
                (all_settled_nil _ _ _ _ _)
                ltac:(vm_compute; reflexivity))
      as (Hrun & Hexit & urls & Hurls & Hreqs).
    cbv zeta. split; [by apply Hexit|].
    change (main no_soup vanishing_http sample_args initial_state)
      with (main no_soup vanishing_http
              (mkArgs (Some sample_api) "stub" (Some "1026") []) initial_state).
    rewrite Hrun. reflexivity.
Defined.

(** C6 as it is stated fails for a fetch that fails with an exception:
    the server goes away after the request for the regulation, the
    first fetch raises, nothing is logged as an error, the thirteen
    paths that remain are never requested and the exit status is 1. *)
Lemma connection_error_aborts_the_run :
  let run := main no_soup vanishing_http sample_args initial_state in
  run = Raise RequestException (state_of run)
  /\ exit_status run = 1%Z
  /\ List.length (regulation_paths "1026" ["2011-1"]) = 14%nat
  /\ requests (state_of run)
     = [sample_reg_url; "http://localhost:8000/api/regulation/1026/2011-1"]
  /\ List.filter is_error (log (state_of run)) = [].
Proof. vm_compute. repeat split. Qed.

(** C7: for a path that begins with [/] the file that two fetches write
    and overwrite is not under [stub_base], although the docstring of
    [get_from_server] says the file is saved to [stub_base]: the
    second fetch of [/tmp/2011-1] overwrites [/tmp/2011-1], and there
    is no file [stub//tmp/2011-1] or [stub/tmp/2011-1]. *)
Theorem absolute_path_is_overwritten_outside_stub_base :
  exists st1 st2,
    get_from_server no_soup escaping_http sample_api "stub" "/tmp/2011-1"
      initial_state = Ok tt st1
    /\ get_from_server no_soup escaping_http sample_api "stub" "/tmp/2011-1"
         st1 = Ok tt st2
    /\ fs st1 !! "/tmp/2011-1" = Some (File (json_dumps (JObj [("a", JInt 0)])))
    /\ fs st2 !! "/tmp/2011-1" = Some (File (json_dumps (JObj [("a", JInt 1)])))
    /\ fs st2 !! "stub//tmp/2011-1" = None
    /\ fs st2 !! "stub/tmp/2011-1" = None.
Proof. eexists _, _. vm_compute. repeat split. Qed.

Lemma handle_error_extraction_or_fallback_witness :
  handle_error debug_soup (server_error sample_reg_url) initial_state
  = Ok tt (logged [(ERROR, "error sending 500: DoesNotExist at /regulation/1026, Regulation matching query does not exist.")]
             initial_state)
  /\ handle_error no_soup (server_error sample_reg_url) initial_state
     = Ok tt (logged [(ERROR, "error getting http://localhost:8000/api/regulation/1026: 500 INTERNAL SERVER ERROR")]
                initial_state).
Proof.
  split.
  - destruct (handle_error_extraction_or_fallback debug_soup
                (server_error sample_reg_url) initial_state
                ltac:(simpl; lia)) as (msg & Hrun & Hsending & _).
    rewrite Hrun.
    rewrite (Hsending "DoesNotExist at /regulation/1026"
                      "Regulation matching query does not exist."
                      eq_refl eq_refl eq_refl).
    reflexivity.
  - destruct (handle_error_extraction_or_fallback no_soup
                (server_error sample_reg_url) initial_state
                ltac:(simpl; lia)) as (msg & Hrun & _ & Hgetting).
    rewrite Hrun.
    rewrite (proj2 Hgetting (or_introl eq_refl)). reflexivity.
Defined.

(** C8 as it is stated fails for a page whose title has a character
    that is not ASCII: both selectors find their element, the
    extraction succeeds, and still the line with the request URL, the
    status code and the reason is logged, because [str.format] raises
    inside the [try]. *)
Lemma non_ascii_title_falls_back :
  extraction accented_soup (server_error sample_reg_url)
  = Some ("DoesNotExist at /regulation/caf" ++ String "233"%char "",
          "Regulation matching query does not exist.")
  /\ handle_error accented_soup (server_error sample_reg_url) initial_state
     = Ok tt (logged [(ERROR, "error getting http://localhost:8000/api/regulation/1026: 500 INTERNAL SERVER ERROR")]
                initial_state).
Proof. vm_compute. split; reflexivity. Qed.

Lemma determine_regulation_paths_distinct_witness :
  (forall found st',
     determine_regulation_paths no_soup sample_http sample_api "1026" initial_state
     = Ok found st' -> List.NoDup found)
  /\ exists found st',
       determine_regulation_paths no_soup sample_http sample_api "1026"
         initial_state = Ok found st'.
Proof.
  destruct (determine_regulation_paths_distinct no_soup sample_http sample_api
              "1026" sample_reg_url ["2011-1"; "2012-2"]
              (ok_response sample_reg_url (versions_doc ["2011-1"; "2012-2"]))
              (versions_doc ["2011-1"; "2012-2"])
              initial_state) as [Hdistinct Hreturns].
  - reflexivity.
  - repeat constructor.
  - repeat (constructor; [simpl; intuition discriminate|]). constructor.
  - vm_compute. reflexivity.
  - reflexivity.
  - reflexivity.
  - reflexivity.
  - split; [exact Hdistinct|]. apply Hreturns. reflexivity.
Defined.

(** C9 as it is stated fails for distinct notices one of which has a
    [/] in it, and for an id that begins with [/]. *)
Lemma notices_with_slash_repeat_paths :
  (exists found st',
     determine_regulation_paths no_soup
       (sample_server sample_reg_url ["a"; "a/a"] [])
       sample_api "1026" initial_state
     = Ok found st'
     /\ List.NoDup ["a"; "a/a"]
     /\ nth_error found 27 = Some "diff/1026/a/a/a"
     /\ nth_error found 28 = Some "diff/1026/a/a/a"
     /\ ~ List.NoDup found)
  /\ (exists found st',
        determine_regulation_paths no_soup
          (sample_server "http://localhost:8000/api/regulation//1026" ["a"] [])
          sample_api "/1026" initial_state
        = Ok found st'
        /\ nth_error found 0 = Some "/1026/a"
        /\ nth_error found 2 = Some "/1026/a"
        /\ ~ List.NoDup found).
Proof.
  split.
  - eexists _, _. split; [vm_compute; reflexivity|].
    split; [repeat (constructor; [simpl; intuition discriminate|]); constructor|].
    split; [reflexivity|]. split; [reflexivity|].
    intros H. rewrite NoDup_nth_error in H.
    specialize (H 27%nat 28%nat ltac:(simpl; lia) eq_refl). discriminate H.
  - eexists _, _. split; [vm_compute; reflexivity|].
    split; [reflexivity|]. split; [reflexivity|].
    intros H. rewrite NoDup_nth_error in H.
    specialize (H 0%nat 2%nat ltac:(simpl; lia) eq_refl). discriminate H.
Qed.



Lemma main_exit_behaviour_witness :
  (let run := main no_soup small_http (mkArgs None "stub" (Some "1026") [])
                initial_state in
   exit_status run = 1%Z /\ stdout (state_of run) = [Help]
   /\ requests (state_of run) = [])
  /\ (let run := main no_soup small_http (mkArgs (Some sample_api) "stub" None [])
                   initial_state in
      exit_status run = 1%Z /\ stdout (state_of run) = [Help]
      /\ requests (state_of run) = [])
  /\ (let run := main no_soup small_http sample_args initial_state in
      exit_status run = 0%Z /\ stdout (state_of run) = [])
  /\ (let run := main no_soup dead_http sample_args initial_state in
      exit_status run = 1%Z /\ stdout (state_of run) = [])
  /\ (let run := main no_soup vanishing_http sample_args initial_state in
      exit_status run = 1%Z /\ stdout (state_of run) = []).
Proof.
  split; [|split; [|split; [|split]]].
  - destruct (main_exit_behaviour no_soup small_http
                (mkArgs None "stub" (Some "1026") []) initial_state) as [Husage _].
    destruct (Husage (or_introl eq_refl)) as (Hexit & Hout & Hreq & _).
    by split_and!.
  - destruct (main_exit_behaviour no_soup small_http
                (mkArgs (Some sample_api) "stub" None []) initial_state)
      as [Husage _].
    destruct (Husage (or_intror (conj eq_refl eq_refl))) as (Hexit & Hout & Hreq & _).
    by split_and!.
  - assert (Hfound : determine_regulation_paths no_soup small_http sample_api "1026"
                       initial_state
                     = Ok (regulation_paths "1026" ["2011-1"])
                          (logged (generating_log "1026")
                                  (requested sample_reg_url initial_state)))
      by (vm_compute; reflexivity).
    assert (Hsettled : exists st' errs,
      all_settled no_soup small_http sample_api "stub"
        (regulation_paths "1026" ["2011-1"])
        (logged (generating_log "1026") (requested sample_reg_url initial_state))
        st' errs).
    { eexists _, _. vm_compute regulation_paths. settle_all. }
    destruct Hsettled as (st' & errs & Hsettled).
    destruct (main_exit_behaviour no_soup small_http sample_args initial_state)
      as [_ Hrun].
    destruct (Hrun sample_api "1026" eq_refl eq_refl) as (Hout & Hfetches & _).
    split; [|exact Hout].
    destruct (Hfetches _ _ st' errs Hfound Hsettled) as (_ & Hexit & _).
    exact Hexit.
  - assert (Hfound : determine_regulation_paths no_soup dead_http sample_api "1026"
                       initial_state
                     = Raise RequestException (requested sample_reg_url initial_state))
      by (vm_compute; reflexivity).
    destruct (main_exit_behaviour no_soup dead_http sample_args initial_state)
      as [_ Hrun].
    destruct (Hrun sample_api "1026" eq_refl eq_refl) as (Hout & _ & Hraise & _).
    split; [|exact Hout].
    destruct (Hraise _ _ Hfound) as (_ & Hexit). by apply Hexit.
  - assert (Hfound : determine_regulation_paths no_soup vanishing_http sample_api
                       "1026" initial_state
                     = Ok (regulation_paths "1026" ["2011-1"])
                          (logged (generating_log "1026")
                                  (requested sample_reg_url initial_state)))
      by (vm_compute; reflexivity).
    assert (Hraise : get_from_server no_soup vanishing_http sample_api "stub"
                       "regulation/1026/2011-1"
                       (logged (generating_log "1026")
                               (requested sample_reg_url initial_state))
                     = Raise RequestException
                         (requested "http://localhost:8000/api/regulation/1026/2011-1"
                            (logged (generating_log "1026")
                                    (requested sample_reg_url initial_state))))
      by (vm_compute; reflexivity).
    destruct (main_exit_behaviour no_soup vanishing_http sample_args initial_state)
      as [_ Hrun].
    destruct (Hrun sample_api "1026" eq_refl eq_refl) as (Hout & _ & _ & Hfetch).
    split; [|exact Hout].
    destruct (Hfetch _ _ [] "regulation/1026/2011-1"
                (List.tl (regulation_paths "1026" ["2011-1"]))
                _ _ [] RequestException Hfound
                ltac:(vm_compute; reflexivity)
                (all_settled_nil _ _ _ _ _) Hraise) as (_ & Hexit).
    by apply Hexit.
Defined.

(** C2 as it is stated fails for a regulation without notices, where
    no path is produced and the program exits with status 0 and prints
    no usage, and for a server that goes away, where the exit status is
    1 although [-a] and [-r] are given and paths have been produced,
    and no usage is printed. *)
Lemma exit_without_usage :
  (let run := main no_soup empty_http sample_args initial_state in
   regulation_paths "1026" [] = []
   /\ exit_status run = 0%Z
   /\ stdout (state_of run) = []
   /\ requests (state_of run) = [sample_reg_url])
  /\ (let run := main no_soup vanishing_http sample_args initial_state in
      exit_status run = 1%Z
      /\ stdout (state_of run) = []
      /\ requests (state_of run)
         = [sample_reg_url; "http://localhost:8000/api/regulation/1026/2011-1"]).
Proof. vm_compute. repeat split. Qed.

(** ** The further properties at work *)

Lemma determine_regulation_paths_count_witness :
  exists st',
    determine_regulation_paths no_soup sample_http sample_api "1026" initial_state
    = Ok (["regulation/1026/2011-1"; "regulation/1026/2012-2"]
          ++ ["notice/2011-1"; "notice/2012-2"]
          ++ List.flat_map
               (fun layer =>
                  List.map (fun n => os_path_join "layer" [layer; "1026"; n])
                           ["2011-1"; "2012-2"])
               layers
          ++ ["diff/1026/2011-1/2011-1"; "diff/1026/2011-1/2012-2";
              "diff/1026/2012-2/2011-1"; "diff/1026/2012-2/2012-2"])%list st'
    /\ List.length (List.flat_map
                      (fun layer =>
                         List.map (fun n => os_path_join "layer" [layer; "1026"; n])
                                  ["2011-1"; "2012-2"])
                      layers) = 22%nat.
Proof.
  destruct (determine_regulation_paths_count no_soup sample_http sample_api "1026"
              sample_reg_url ["2011-1"; "2012-2"]
              (ok_response sample_reg_url (versions_doc ["2011-1"; "2012-2"]))
              (versions_doc ["2011-1"; "2012-2"])
              initial_state)
    as (st' & Hrun & _ & _ & Hlayers & _).
  - reflexivity.
  - vm_compute. reflexivity.
  - reflexivity.
  - reflexivity.
  - reflexivity.
  - exists st'. split; [exact Hrun|exact Hlayers].
Defined.

Lemma repeated_notice_repeats_paths_witness :
  exists found st',
    determine_regulation_paths no_soup repeating_http sample_api "1026"
      initial_state = Ok found st'
    /\ ~ List.NoDup found.
Proof.
  apply (repeated_notice_repeats_paths no_soup repeating_http sample_api "1026"
           sample_reg_url ["2011-1"; "2011-1"]
           (ok_response sample_reg_url (versions_doc ["2011-1"; "2011-1"]))
           (versions_doc ["2011-1"; "2011-1"])
           initial_state).
  - reflexivity.
  - vm_compute. reflexivity.
  - reflexivity.
  - reflexivity.
  - reflexivity.
  - intros H. inversion H as [|x l Hin _]. apply Hin. by left.
Defined.


Lemma regulation_without_notices_fetches_nothing_witness :
  let run := main no_soup empty_http sample_args initial_state in
  exit_status run = 0%Z
  /\ requests (state_of run) = [sample_reg_url]
  /\ fs (state_of run) = ∅.
Proof.
  destruct (regulation_without_notices_fetches_nothing no_soup empty_http
              sample_api "stub" "1026" sample_reg_url []
              (ok_response sample_reg_url (versions_doc []))
              (versions_doc []) initial_state)
    as (_ & Hexit & Hrequests & Hfs).
  - vm_compute. reflexivity.
  - reflexivity.
  - reflexivity.
  - by left.
  - by split_and!.
Defined.

Lemma connection_error_is_not_caught_witness :
  main no_soup dead_http sample_args initial_state
  = Raise RequestException (requested sample_reg_url initial_state)
  /\ get_from_server no_soup dead_http sample_api "stub" "regulation/1026"
       initial_state
     = Raise RequestException (requested sample_reg_url initial_state).
Proof.
  destruct (connection_error_is_not_caught no_soup dead_http sample_api "stub"
              "1026" "regulation/1026" sample_reg_url [] RequestException
              initial_state)
    as [Hmain Hfetch].
  - reflexivity.
  - split.
    + apply Hmain. vm_compute. reflexivity.
    + apply Hfetch. vm_compute. reflexivity.
Defined.

Lemma invalid_url_ends_the_run_before_any_request_witness :
  let run := main no_soup sample_http
               (mkArgs (Some "http://[::1/api/") "stub" (Some "1026") [])
               initial_state in
  run = Raise ValueError initial_state /\ exit_status run = 1%Z.
Proof.
  destruct (invalid_url_ends_the_run_before_any_request no_soup sample_http
              "http://[::1/api/" "stub" "1026" [] ValueError initial_state)
    as (_ & Hrun & Hexit).
  - vm_compute. reflexivity.
  - by split.
Defined.

Lemma non_ascii_id_raises_witness :
  let run := main no_soup cafe_http
               (mkArgs (Some sample_api) "stub" (Some cafe) []) initial_state in
  run = Raise UnicodeDecodeError
          (logged [(INFO, "generating paths for regulation " ++ cafe ++ "...")]
             (requested cafe_reg_url initial_state))
  /\ exit_status run = 1%Z
  /\ requests (state_of run) = [cafe_reg_url]
  /\ fs (state_of run) = ∅.
Proof.
  apply (non_ascii_id_raises no_soup cafe_http sample_api "stub" cafe
           cafe_reg_url "2011-1" [] []
           (ok_response cafe_reg_url (versions_doc ["2011-1"]))
           (versions_doc ["2011-1"]) initial_state).
  - reflexivity.
  - vm_compute. reflexivity.
  - vm_compute. reflexivity.
  - reflexivity.
  - reflexivity.
  - reflexivity.
Defined.


Lemma get_from_server_again_overwrites_witness :
  exists st1 st2,
    get_from_server no_soup changing_http sample_api "stub" "notice/2011-1"
      initial_state = Ok tt st1
    /\ fs st1 !! "stub/notice/2011-1"
       = Some (File (json_dumps (JObj [("a", JInt 0)])))
    /\ get_from_server no_soup changing_http sample_api "stub" "notice/2011-1"
         st1 = Ok tt st2
    /\ fs st2 = <["stub/notice/2011-1" := File (json_dumps (JObj [("a", JInt 1)]))]>
                  (fs st1).
Proof.
  assert (Hfirst : get_from_server no_soup changing_http sample_api "stub"
                     "notice/2011-1" initial_state
                   = Ok tt (state_of (get_from_server no_soup changing_http sample_api
                                        "stub" "notice/2011-1" initial_state)))
    by (vm_compute; reflexivity).
  destruct (get_from_server_again_overwrites no_soup changing_http sample_api "stub"
              "notice/2011-1" "http://localhost:8000/api/notice/2011-1"
              (ok_response "http://localhost:8000/api/notice/2011-1"
                           (JObj [("a", JInt 0)]))
              (ok_response "http://localhost:8000/api/notice/2011-1"
                           (JObj [("a", JInt 1)]))
              (JObj [("a", JInt 1)])
              initial_state _ _
              ltac:(vm_compute; reflexivity) ltac:(reflexivity) ltac:(reflexivity)
              Hfirst ltac:(reflexivity) ltac:(vm_compute; reflexivity)
              ltac:(reflexivity) ltac:(reflexivity))
    as (body1 & st2 & Hbody1 & Hfile & Hsecond & Hfs & _).
  injection Hbody1 as <-.
  exists (state_of (get_from_server no_soup changing_http sample_api "stub"
                      "notice/2011-1" initial_state)), st2.
  split; [exact Hfirst|]. split; [exact Hfile|]. split; [exact Hsecond|]. exact Hfs.
Defined.



Lemma empty_directory_name_raises_witness :
  get_from_server no_soup changing_http sample_api "" "2011-1" initial_state
  = Raise (OSError ENOENT)
      (logged [(INFO, "getting 2011-1")]
         (requested "http://localhost:8000/api/2011-1" initial_state)).
Proof.
  apply (empty_directory_name_raises no_soup changing_http sample_api "2011-1"
           "http://localhost:8000/api/2011-1"
           (ok_response "http://localhost:8000/api/2011-1" (JObj [("a", JInt 0)]))
           initial_state).
  - vm_compute. reflexivity.
  - reflexivity.
  - reflexivity.
  - reflexivity.
  - reflexivity.
Defined.

Lemma saved_file_is_printable_ascii_witness :
  exists content,
    fs (state_of (get_from_server no_soup sample_http sample_api "stub"
                    "notice/2011-1" initial_state))
    !! "stub/notice/2011-1" = Some (File content)
    /\ printable content = true.
Proof.
  apply (saved_file_is_printable_ascii no_soup sample_http sample_api "stub"
           "notice/2011-1" "http://localhost:8000/api/notice/2011-1"
           (ok_response "http://localhost:8000/api/notice/2011-1"
              (JObj [("a", JInt 1)]))
           (JObj [("a", JInt 1)]) initial_state).
  - vm_compute. reflexivity.
  - reflexivity.
  - reflexivity.
  - reflexivity.
  - reflexivity.
  - vm_compute. reflexivity.
Defined.

Lemma non_ascii_path_is_not_saved_witness :
  urljoin_unicode sample_api accented_notice = inr accented_url
  /\ get_from_server no_soup accented_http sample_api "stub" accented_notice
       initial_state
     = Raise UnicodeEncodeError (requested accented_url initial_state).
Proof.
  split; [vm_compute; reflexivity|].
  apply (non_ascii_path_is_not_saved no_soup accented_http sample_api "stub"
           accented_notice accented_url
           (ok_response accented_url (JObj [("a", JInt 1)])) initial_state).
  - vm_compute. reflexivity.
  - reflexivity.
  - reflexivity.
  - reflexivity.
Defined.

Lemma settled_run_request_count_witness :
  exists st',
    main no_soup small_http sample_args initial_state = Ok tt st'
    /\ List.length (requests st') = 15%nat.
Proof.
  assert (Hsettled : exists st' errs,
    all_settled no_soup small_http sample_api "stub"
      (regulation_paths "1026" ["2011-1"])
      (logged (generating_log "1026")
         (received no_soup sample_reg_url
            (ok_response sample_reg_url (versions_doc ["2011-1"])) initial_state))
      st' errs).
  { eexists _, _. vm_compute regulation_paths. settle_all. }
  destruct Hsettled as (st' & errs & Hsettled).
  exists st'.
  apply (settled_run_request_count no_soup small_http sample_api "stub" "1026"
           sample_reg_url [] ["2011-1"]
           (ok_response sample_reg_url (versions_doc ["2011-1"]))
           (versions_doc ["2011-1"])
           initial_state st' errs).
  - reflexivity.
  - vm_compute. reflexivity.
  - reflexivity.
  - reflexivity.
  - reflexivity.
  - exact Hsettled.
Defined.

Lemma run_keeps_well_formed_witness :
  well_formed (fs initial_state)
  /\ well_formed (fs (state_of (main no_soup small_http sample_args
                                  initial_state))).
Proof.
  assert (Hempty : well_formed (fs initial_state)).
  { intros k n Hk. simpl in Hk. by rewrite lookup_empty in Hk. }
  split; [exact Hempty|].
  exact (run_keeps_well_formed no_soup small_http sample_args initial_state
           Hempty).
Defined.
